(** * ftx_client.py: the signed REST client, embedded and verified

    The development follows [src/ftx_client.py].  The client is dynamically
    typed Python over three library collaborators (requests, hmac, urllib),
    so the embedding has these layers:

    - [Py]: the Python values the client manipulates (JSON-shaped data,
      exceptions as an error monad, truthiness, [==], [<], [min], f-string
      formatting of an [int]);
    - [Utf8]: [str.encode()] and [bytes.decode('utf-8', 'replace')];
    - [Sha256]: SHA-256 and HMAC as [hmac.new(key, msg, 'sha256')] computes
      them, executable;
    - [Urllib]: [urllib.parse.quote] and its inverse [unquote];
    - [Requests]: the part of [requests] the client relies on, with the
      pieces that live outside this repository (URL preparation, the JSON
      codec, the network) gathered in the [Transport] class;
    - [Ftx]: the methods of [FtxClient], one definition per method. *)

From Stdlib Require Import ZArith NArith List PrimFloat SpecFloat FloatOps.
From Stdlib Require Import DecimalString DecimalZ DecimalPos.
From Stdlib.Strings Require Import Byte Ascii String.
From stdpp Require Import base option list gmap.

#[local] Open Scope Z_scope.
#[local] Set Warnings "-register-all".

(* ================================================================== *)
(** * Python values                                                    *)
(* ================================================================== *)

Module Py.

(** A Python [str] is a sequence of code points; a [bytes] object is a
    sequence of octets.  The two are different types, as in Python 3. *)
Definition str := list N.
Definition bytes := list byte.

#[export] Instance byte_eq_dec : EqDecision byte := Byte.byte_eq_dec.

(** An ASCII literal of the source, as a [str]. *)
Definition lit (s : string) : str :=
  map N_of_ascii (list_ascii_of_string s).

(** What a Python [str] may hold: code points up to U+10FFFF.  Lone
    surrogates are allowed in a [str]; only encoding rejects them. *)
Definition is_code_point (c : N) : bool := (c <? 0x110000)%N.
Definition is_surrogate (c : N) : bool := ((0xD800 <=? c) && (c <=? 0xDFFF))%N.
Definition is_scalar (c : N) : bool := is_code_point c && negb (is_surrogate c).

(** The values that reach the client: what [json.loads] produces and what
    callers pass as arguments.  A [dict] keeps its insertion order, each key
    listed once. *)
Inductive value :=
| VNone
| VBool (b : bool)
| VInt (z : Z)
| VFloat (f : float)
| VStr (s : str)
| VList (l : list value)
| VDict (d : list (str * value)).

(** Exceptions the client can raise or let through. *)
Inductive exn :=
| ValueError (msg : str)
| JSONDecodeError            (* a ValueError raised by [response.json()] *)
| UnicodeEncodeError         (* a ValueError raised by [str.encode] *)
| KeyError (key : str)
| TypeError
| AttributeError
| HTTPError (status : Z)
| TransportError             (* anything [requests] raises on its own *)
| Exception (arg : value).

Inductive result (A : Type) :=
| Ok (a : A)
| Err (e : exn).
Arguments Ok {A} a.
Arguments Err {A} e.

#[export] Instance result_ret : MRet result := @Ok.
#[export] Instance result_bind : MBind result :=
  λ A B f m, match m with Ok a => f a | Err e => Err e end.
#[export] Instance result_fmap : FMap result :=
  λ A B f m, match m with Ok a => Ok (f a) | Err e => Err e end.

Definition raise {A} (e : exn) : result A := Err e.

Definition is_ok {A} (r : result A) : bool :=
  match r with Ok _ => true | Err _ => false end.

(** [bool(v)]. *)
Definition truthy (v : value) : bool :=
  match v with
  | VNone => false
  | VBool b => b
  | VInt z => negb (z =? 0)
  | VFloat f => negb (PrimFloat.eqb f 0)
  | VStr s => negb (bool_decide (s = []))
  | VList l => match l with [] => false | _ => true end
  | VDict d => match d with [] => false | _ => true end
  end.

(** [isinstance(v, str)]. *)
Definition isinstance_str (v : value) : bool :=
  match v with VStr _ => true | _ => false end.

(** Dictionary lookup, first binding of the key. *)
Fixpoint assoc (k : str) (d : list (str * value)) : option value :=
  match d with
  | [] => None
  | (k', v) :: d' => if bool_decide (k' = k) then Some v else assoc k d'
  end.

(** [v[k]] for a [str] key: a [dict] answers or raises [KeyError]; every
    other value raises [TypeError]. *)
Definition getitem (v : value) (k : str) : result value :=
  match v with
  | VDict d => match assoc k d with
               | Some x => Ok x
               | None => raise (KeyError k)
               end
  | _ => raise TypeError
  end.

(** [iter(v)], forced: the items a [for] loop over [v] visits. *)
Definition py_iter (v : value) : result (list value) :=
  match v with
  | VList l => Ok l
  | VDict d => Ok (map (λ kv, VStr (fst kv)) d)
  | VStr s => Ok (map (λ c, VStr [c]) s)
  | _ => raise TypeError
  end.

(** ** Numbers: [bool], [int] and [float] compare across types, exactly. *)
Inductive num :=
| NumZ (z : Z)
| NumF (f : float).

Definition as_num (v : value) : option num :=
  match v with
  | VBool b => Some (NumZ (Z.b2z b))
  | VInt z => Some (NumZ z)
  | VFloat f => Some (NumF f)
  | _ => None
  end.

(** An [int] against a [float]: the comparison is on the mathematical
    values, [None] against a NaN. *)
Definition Z_float_compare (z : Z) (f : float) : option comparison :=
  match Prim2SF f with
  | S754_nan => None
  | S754_infinity neg => Some (if neg then Gt else Lt)
  | S754_zero _ => Some (z ?= 0)
  | S754_finite neg m e =>
      let v := if neg then Z.neg m else Z.pos m in
      Some (if 0 <=? e then z ?= v * 2 ^ e else z * 2 ^ (- e) ?= v)
  end.

Definition num_compare (a b : num) : option comparison :=
  match a, b with
  | NumZ x, NumZ y => Some (x ?= y)
  | NumF x, NumF y =>
      match PrimFloat.compare x y with
      | FEq => Some Eq
      | FLt => Some Lt
      | FGt => Some Gt
      | FNotComparable => None
      end
  | NumZ x, NumF y => Z_float_compare x y
  | NumF x, NumZ y => CompOpp <$> Z_float_compare y x
  end.

Definition is_cmp (c : comparison) (o : option comparison) : bool :=
  match o, c with
  | Some Eq, Eq | Some Lt, Lt | Some Gt, Gt => true
  | _, _ => false
  end.

(** ** [a == b].  Containers compare element by element with [==] (the
    identity shortcut Python takes inside containers is not modelled: a
    value parsed from a response and a value of the caller are never the
    same object). *)
Fixpoint py_eq (a b : value) : bool :=
  match a, b with
  | VNone, VNone => true
  | VStr s, VStr t => bool_decide (s = t)
  | VList l, VList m =>
      (fix go (l m : list value) : bool :=
         match l, m with
         | [], [] => true
         | x :: l', y :: m' => py_eq x y && go l' m'
         | _, _ => false
         end) l m
  | VDict d, VDict e =>
      (length d =? length e)%nat &&
      (fix go (d : list (str * value)) : bool :=
         match d with
         | [] => true
         | (k, v) :: d' =>
             match assoc k e with
             | Some w => py_eq v w
             | None => false
             end && go d'
         end) d
  | _, _ =>
      match as_num a, as_num b with
      | Some x, Some y => is_cmp Eq (num_compare x y)
      | _, _ => false
      end
  end.

(** Code-point order on [str]. *)
Fixpoint str_ltb (s t : str) : bool :=
  match s, t with
  | _, [] => false
  | [], _ :: _ => true
  | c :: s', d :: t' => (c <? d)%N || ((c =? d)%N && str_ltb s' t')
  end.

(** ** [a < b]: numbers, strings and lists are ordered; anything else
    raises [TypeError]. *)
Fixpoint py_lt (a b : value) : result bool :=
  match a, b with
  | VStr s, VStr t => Ok (str_ltb s t)
  | VList l, VList m =>
      (fix go (l m : list value) : result bool :=
         match l, m with
         | _, [] => Ok false
         | [], _ :: _ => Ok true
         | x :: l', y :: m' => if py_eq x y then go l' m' else py_lt x y
         end) l m
  | _, _ =>
      match as_num a, as_num b with
      | Some x, Some y => Ok (is_cmp Lt (num_compare x y))
      | _, _ => raise TypeError
      end
  end.

(** ** [min(items, key=key)]: the first item whose key is least; the loop
    replaces the running minimum only when the new key is strictly less. *)
Fixpoint min_loop (key : value → result value) (items : list value)
    (minitem minval : value) : result value :=
  match items with
  | [] => Ok minitem
  | item :: rest =>
      val ← key item;
      lt ← py_lt val minval;
      if lt : bool then min_loop key rest item val
      else min_loop key rest minitem minval
  end.

Definition py_min (items : list value) (key : value → result value)
  : result value :=
  match items with
  | [] => raise (ValueError (lit "min() arg is an empty sequence"))
  | item :: rest => val ← key item; min_loop key rest item val
  end.

(** ** A list comprehension [[x for x in items if cond(x)]], where the
    condition may raise. *)
Fixpoint comprehension (cond : value → result bool) (items : list value)
  : result (list value) :=
  match items with
  | [] => Ok []
  | x :: rest =>
      keep ← cond x;
      kept ← comprehension cond rest;
      Ok (if keep : bool then x :: kept else kept)
  end.

(** ** [str(n)] and [f'{n}'] for an [int]: decimal digits, a leading minus
    sign for negatives. *)
Definition str_of_int (n : Z) : str :=
  lit (NilZero.string_of_int (Z.to_int n)).

End Py.
Import Py.

Example truthy_samples :
  map truthy [VNone; VBool true; VInt 0; VFloat 0; VStr []; VStr (lit "k");
              VList []; VDict []]
  = [false; true; false; false; false; true; false; false].
Proof. reflexivity. Qed.

Example str_of_int_samples :
  str_of_int 1557246346499 = lit "1557246346499" ∧
  str_of_int 0 = lit "0" ∧ str_of_int (-7) = lit "-7".
Proof. repeat split; reflexivity. Qed.

Example py_eq_samples :
  py_eq (VInt 1) (VBool true) = true ∧
  py_eq (VFloat 1) (VInt 1) = true ∧
  py_eq (VStr (lit "future")) (VStr (lit "future")) = true ∧
  py_eq (VStr (lit "1")) (VInt 1) = false ∧
  py_eq (VFloat 1.5) (VInt 1) = false ∧
  py_lt (VInt 1000) (VInt 3000) = Ok true ∧
  py_lt (VInt 1) (VFloat 1.5) = Ok true ∧
  py_lt (VNone) (VInt 3) = Err TypeError.
Proof. repeat split; reflexivity. Qed.

(* ================================================================== *)
(** * UTF-8: [str.encode()] and [bytes.decode('utf-8', 'replace')]     *)
(* ================================================================== *)

Module Utf8.

(** The octet with value [n], for [n < 256]. *)
Definition octet (n : N) : byte :=
  match Byte.of_N n with Some b => b | None => x00 end.

Definition lead (tag n : N) : byte := octet (N.lor tag n).
Definition cont (n : N) : byte := octet (N.lor 0x80 (N.land n 0x3F)).

(** One code point, strictly: a surrogate cannot be encoded. *)
Definition encode_code_point (c : N) : result bytes :=
  if (c <? 0x80)%N then Ok [octet c]
  else if (c <? 0x800)%N then
    Ok [lead 0xC0 (N.shiftr c 6); cont c]
  else if is_surrogate c then raise UnicodeEncodeError
  else if (c <? 0x10000)%N then
    Ok [lead 0xE0 (N.shiftr c 12); cont (N.shiftr c 6); cont c]
  else if (c <? 0x110000)%N then
    Ok [lead 0xF0 (N.shiftr c 18); cont (N.shiftr c 12);
        cont (N.shiftr c 6); cont c]
  else raise UnicodeEncodeError.

(** [s.encode()]: UTF-8, [errors='strict']. *)
Fixpoint encode (s : str) : result bytes :=
  match s with
  | [] => Ok []
  | c :: s' =>
      b ← encode_code_point c;
      bs ← encode s';
      Ok (b ++ bs)
  end.

Definition is_cont (n : N) : bool := ((0x80 <=? n) && (n <? 0xC0))%N.
Definition payload (n : N) : N := N.land n 0x3F.
Definition replacement : N := 0xFFFD.

(** Decoding at a lead octet [b] followed by [r]: the code point read (or
    U+FFFD) and how many octets of [r] it takes with it.  An ill-formed
    sequence is replaced as far as it was a prefix of a well-formed one. *)
Definition decode_first (b : byte) (r : bytes) : N * nat :=
  let n1 := Byte.to_N b in
  if (n1 <? 0x80)%N then (n1, 0%nat)
  else if (n1 <? 0xC2)%N then (replacement, 0%nat)
  else if (n1 <? 0xE0)%N then
    match r with
    | b2 :: _ =>
        let n2 := Byte.to_N b2 in
        if is_cont n2
        then (N.lor (N.shiftl (N.land n1 0x1F) 6) (payload n2), 1%nat)
        else (replacement, 0%nat)
    | [] => (replacement, 0%nat)
    end
  else if (n1 <? 0xF0)%N then
    match r with
    | b2 :: r2 =>
        let n2 := Byte.to_N b2 in
        if is_cont n2
           && negb ((n1 =? 0xE0)%N && (n2 <? 0xA0)%N)
           && negb ((n1 =? 0xED)%N && (0xA0 <=? n2)%N)
        then
          match r2 with
          | b3 :: _ =>
              let n3 := Byte.to_N b3 in
              if is_cont n3
              then (N.lor (N.shiftl (N.land n1 0x0F) 12)
                      (N.lor (N.shiftl (payload n2) 6) (payload n3)), 2%nat)
              else (replacement, 1%nat)
          | [] => (replacement, 1%nat)
          end
        else (replacement, 0%nat)
    | [] => (replacement, 0%nat)
    end
  else if (n1 <? 0xF5)%N then
    match r with
    | b2 :: r2 =>
        let n2 := Byte.to_N b2 in
        if is_cont n2
           && negb ((n1 =? 0xF0)%N && (n2 <? 0x90)%N)
           && negb ((n1 =? 0xF4)%N && (0x90 <=? n2)%N)
        then
          match r2 with
          | b3 :: r3 =>
              let n3 := Byte.to_N b3 in
              if is_cont n3 then
                match r3 with
                | b4 :: _ =>
                    let n4 := Byte.to_N b4 in
                    if is_cont n4
                    then (N.lor (N.shiftl (N.land n1 0x07) 18)
                            (N.lor (N.shiftl (payload n2) 12)
                               (N.lor (N.shiftl (payload n3) 6) (payload n4))),
                          3%nat)
                    else (replacement, 2%nat)
                | [] => (replacement, 2%nat)
                end
              else (replacement, 1%nat)
          | [] => (replacement, 1%nat)
          end
        else (replacement, 0%nat)
    | [] => (replacement, 0%nat)
    end
  else (replacement, 0%nat).

(** The decoding loop; [skip] counts octets already taken by the sequence
    in progress. *)
Fixpoint decode_from (skip : nat) (bs : bytes) : str :=
  match bs with
  | [] => []
  | b :: r =>
      match skip with
      | S k => decode_from k r
      | O => let '(c, k) := decode_first b r in c :: decode_from k r
      end
  end.

(** [bs.decode('utf-8', 'replace')]. *)
Definition decode (bs : bytes) : str := decode_from 0 bs.

End Utf8.

Example utf8_encode_samples :
  Utf8.encode (lit "A") = Ok ["A"%byte] ∧
  Utf8.encode [0xE9%N] = Ok [xc3; xa9] ∧
  Utf8.encode [0x20AC%N] = Ok [xe2; x82; xac] ∧
  Utf8.encode [0x1F600%N] = Ok [xf0; x9f; x98; x80] ∧
  Utf8.encode [0xD800%N] = Err UnicodeEncodeError.
Proof. repeat split; reflexivity. Qed.

Example utf8_decode_samples :
  Utf8.decode [xe2; x82; xac] = [0x20AC%N] ∧
  Utf8.decode [xe2; x82; x41] = [0xFFFD; 0x41]%N ∧
  Utf8.decode [xf0; x9f; x98] = [0xFFFD]%N ∧
  Utf8.decode [xf0; x9f; x41] = [0xFFFD; 0x41]%N ∧
  Utf8.decode [xc0; x80] = [0xFFFD; 0xFFFD]%N ∧
  Utf8.decode [xed; xa0; x80] = [0xFFFD; 0xFFFD; 0xFFFD]%N ∧
  Utf8.decode [xf4; x90; x80; x80] = [0xFFFD; 0xFFFD; 0xFFFD; 0xFFFD]%N ∧
  Utf8.decode [xe0; x80; x80] = [0xFFFD; 0xFFFD; 0xFFFD]%N ∧
  Utf8.decode [xc3; x41] = [0xFFFD; 0x41]%N ∧
  Utf8.decode [xf0; x9f; x98; x80] = [0x1F600]%N.
Proof. repeat split; reflexivity. Qed.

(* ================================================================== *)
(** * urllib.parse: [quote] and [unquote]                              *)
(* ================================================================== *)

Module Urllib.

(** The octets [quote] never escapes: letters, digits, [_.-~], and its
    default [safe='/']. *)
Definition always_safe (n : N) : bool :=
  ((0x41 <=? n) && (n <=? 0x5A) || (0x61 <=? n) && (n <=? 0x7A)
   || (0x30 <=? n) && (n <=? 0x39)
   || (n =? 0x5F) || (n =? 0x2E) || (n =? 0x2D) || (n =? 0x7E))%N.

Definition safe (n : N) : bool := always_safe n || (n =? 0x2F)%N.

(** One hexadecimal digit, upper case as ['%02X'] prints it. *)
Definition hex_upper (d : N) : N :=
  if (d <? 10)%N then (0x30 + d)%N else (0x41 + (d - 10))%N.

Definition percent : N := 0x25.

Definition quote_octet (b : byte) : str :=
  let n := Byte.to_N b in
  if safe n then [n]
  else [percent; hex_upper (n / 16); hex_upper (n mod 16)].

(** [quote_from_bytes(bs)]. *)
Definition quote_from_bytes (bs : bytes) : str :=
  concat (map quote_octet bs).

(** [quote(s)]: the string is UTF-8 encoded, strictly, then escaped. *)
Definition quote (s : str) : result str :=
  bs ← Utf8.encode s;
  Ok (quote_from_bytes bs).

(** The value of a hexadecimal digit, either case. *)
Definition hex_value (c : byte) : option N :=
  let n := Byte.to_N c in
  if ((0x30 <=? n) && (n <=? 0x39))%N then Some (n - 0x30)%N
  else if ((0x41 <=? n) && (n <=? 0x46))%N then Some (n - 0x41 + 10)%N
  else if ((0x61 <=? n) && (n <=? 0x66))%N then Some (n - 0x61 + 10)%N
  else None.

(** [unquote_to_bytes]: every [%XX] with two hexadecimal digits becomes the
    octet [XX]; a [%] not followed by two such digits stays. *)
Fixpoint unquote_to_bytes (bs : bytes) : bytes :=
  match bs with
  | [] => []
  | b :: r =>
      if (Byte.to_N b =? percent)%N then
        match r with
        | h :: l :: r' =>
            match hex_value h, hex_value l with
            | Some x, Some y => Utf8.octet (16 * x + y) :: unquote_to_bytes r'
            | _, _ => b :: unquote_to_bytes r
            end
        | _ => b :: unquote_to_bytes r
        end
      else b :: unquote_to_bytes r
  end.

(** One maximal ASCII run of the quoted string, unescaped and decoded. *)
Definition unquote_run (run : bytes) : str :=
  Utf8.decode (unquote_to_bytes (rev run)).

(** The runs of ASCII characters are unescaped, what lies between them is
    kept; [run] is the current run, last character first. *)
Fixpoint unquote_parts (run : bytes) (s : str) : str :=
  match s with
  | [] => unquote_run run
  | c :: s' =>
      if (c <? 0x80)%N then unquote_parts (Utf8.octet c :: run) s'
      else unquote_run run ++ c :: unquote_parts [] s'
  end.

(** [unquote(s)], with its defaults [encoding='utf-8', errors='replace']. *)
Definition unquote (s : str) : str :=
  if bool_decide (percent ∈ s) then unquote_parts [] s else s.

End Urllib.

Example quote_samples :
  Urllib.quote (lit "my sub") = Ok (lit "my%20sub") ∧
  Urllib.quote [0x63; 0x61; 0x66; 0xE9]%N = Ok (lit "caf%C3%A9") ∧
  Urllib.quote (lit "a/b~c_d.e-f") = Ok (lit "a/b~c_d.e-f") ∧
  Urllib.quote [0x20AC%N] = Ok (lit "%E2%82%AC") ∧
  Urllib.quote (lit "a b%c") = Ok (lit "a%20b%25c") ∧
  Urllib.quote [0xD800%N] = Err UnicodeEncodeError.
Proof. repeat split; reflexivity. Qed.

Example unquote_samples :
  Urllib.unquote (lit "my%20sub") = lit "my sub" ∧
  Urllib.unquote (lit "%4") = lit "%4" ∧
  Urllib.unquote (lit "%zz") = lit "%zz" ∧
  Urllib.unquote (lit "%%41") = lit "%A" ∧
  Urllib.unquote (lit "%4g%41") = lit "%4gA" ∧
  Urllib.unquote (lit "a%e2%82%acb") = [0x61; 0x20AC; 0x62]%N ∧
  Urllib.unquote (lit "%E2%82") = [0xFFFD]%N ∧
  Urllib.unquote ([0xE9%N] ++ lit "%41" ++ [0xE9%N]) = [0xE9; 0x41; 0xE9]%N.
Proof. repeat split; vm_compute; reflexivity. Qed.

(* ================================================================== *)
(** * hmac: SHA-256 and HMAC, [hmac.new(key, msg, 'sha256').hexdigest()] *)
(* ================================================================== *)

Module Sha256.

(** 32-bit words are integers in [[0, 2^32)]; every sum wraps. *)
Definition wrap (x : Z) : Z := Z.land x 0xFFFFFFFF.
Definition add32 (x y : Z) : Z := wrap (x + y).
Definition not32 (x : Z) : Z := Z.lxor x 0xFFFFFFFF.
Definition rotr (n x : Z) : Z :=
  Z.lor (Z.shiftr x n) (wrap (Z.shiftl x (32 - n))).

Definition ch (x y z : Z) : Z := Z.lxor (Z.land x y) (Z.land (not32 x) z).
Definition maj (x y z : Z) : Z :=
  Z.lxor (Z.lxor (Z.land x y) (Z.land x z)) (Z.land y z).
Definition big_sigma0 (x : Z) : Z :=
  Z.lxor (Z.lxor (rotr 2 x) (rotr 13 x)) (rotr 22 x).
Definition big_sigma1 (x : Z) : Z :=
  Z.lxor (Z.lxor (rotr 6 x) (rotr 11 x)) (rotr 25 x).
Definition small_sigma0 (x : Z) : Z :=
  Z.lxor (Z.lxor (rotr 7 x) (rotr 18 x)) (Z.shiftr x 3).
Definition small_sigma1 (x : Z) : Z :=
  Z.lxor (Z.lxor (rotr 17 x) (rotr 19 x)) (Z.shiftr x 10).

(** The constants are fractional parts of roots of the first primes:
    [root k n] is the integer [k]-th root of [n], by bisection from the top
    bit down. *)
Definition is_prime (p : Z) : bool :=
  forallb (λ d, negb (p mod Z.of_nat d =? 0)) (seq 2 (Z.to_nat p - 2)).

Definition primes : list Z :=
  filter (λ p, is_prime p = true) (map Z.of_nat (seq 2 310)).

Fixpoint root (k n : Z) (bit : nat) (r : Z) : Z :=
  match bit with
  | O => r
  | S b =>
      let c := r + 2 ^ Z.of_nat b in
      if c ^ k <=? n then root k n b c else root k n b r
  end.

(** The first 32 bits of the fractional part of the [k]-th root of [p]. *)
Definition fraction32 (k p : Z) : Z := wrap (root k (p * 2 ^ (32 * k)) 36 0).

(** Cube roots of the first 64 primes. *)
Definition round_constants : list Z :=
  Eval vm_compute in map (fraction32 3) primes.

Record state := State {
  sa : Z; sb : Z; sc : Z; sd : Z; se : Z; sf : Z; sg : Z; sh : Z }.

(** Square roots of the first 8 primes. *)
Definition initial_state : state :=
  Eval vm_compute in
    match map (fraction32 2) primes with
    | a :: b :: c :: d :: e :: f :: g :: h :: _ => State a b c d e f g h
    | _ => State 0 0 0 0 0 0 0 0
    end.

Definition byte_Z (b : byte) : Z := Z.of_N (Byte.to_N b).
Definition Z_byte (z : Z) : byte := Utf8.octet (Z.to_N (Z.land z 0xFF)).

(** Big-endian words of a block. *)
Fixpoint words (bs : bytes) : list Z :=
  match bs with
  | b0 :: b1 :: b2 :: b3 :: r =>
      Z.lor (Z.shiftl (byte_Z b0) 24)
        (Z.lor (Z.shiftl (byte_Z b1) 16)
           (Z.lor (Z.shiftl (byte_Z b2) 8) (byte_Z b3))) :: words r
  | _ => []
  end.

Definition word_bytes (w : Z) : bytes :=
  [Z_byte (Z.shiftr w 24); Z_byte (Z.shiftr w 16); Z_byte (Z.shiftr w 8);
   Z_byte w].

(** The message schedule, latest word first: one more word from the
    sixteen before it. *)
Definition schedule_step (ws : list Z) : list Z :=
  match ws with
  | _ :: w2 :: _ :: _ :: _ :: _ :: w7 :: _ :: _ :: _ :: _ :: _ :: _ :: _
      :: w15 :: w16 :: _ =>
      add32 (add32 (small_sigma1 w2) w7) (add32 (small_sigma0 w15) w16) :: ws
  | _ => ws
  end.

Definition schedule (block : bytes) : list Z :=
  rev (Nat.iter 48 schedule_step (rev (words block))).

Definition round (s : state) (kw : Z * Z) : state :=
  let t1 := add32 (add32 (add32 (sh s) (big_sigma1 (se s)))
                     (add32 (ch (se s) (sf s) (sg s)) (fst kw))) (snd kw) in
  let t2 := add32 (big_sigma0 (sa s)) (maj (sa s) (sb s) (sc s)) in
  State (add32 t1 t2) (sa s) (sb s) (sc s) (add32 (sd s) t1) (se s) (sf s)
        (sg s).

Definition compress (s : state) (block : bytes) : state :=
  let r := fold_left round (combine round_constants (schedule block)) s in
  State (add32 (sa s) (sa r)) (add32 (sb s) (sb r)) (add32 (sc s) (sc r))
        (add32 (sd s) (sd r)) (add32 (se s) (se r)) (add32 (sf s) (sf r))
        (add32 (sg s) (sg r)) (add32 (sh s) (sh r)).

(** The message, a 1 bit, zeros up to 56 modulo 64 octets, and the length
    in bits on 64 bits. *)
Definition padding (len : nat) : bytes :=
  let bits := 8 * Z.of_nat len in
  x80 :: repeat x00 (Z.to_nat ((55 - Z.of_nat len) mod 64))
    ++ word_bytes (Z.shiftr bits 32) ++ word_bytes bits.

Fixpoint absorb (n : nat) (s : state) (bs : bytes) : state :=
  match n with
  | O => s
  | S n' => absorb n' (compress s (take 64 bs)) (drop 64 bs)
  end.

Definition sha256 (msg : bytes) : bytes :=
  let padded := msg ++ padding (length msg) in
  let s := absorb (length padded / 64) initial_state padded in
  concat (map word_bytes
            [sa s; sb s; sc s; sd s; se s; sf s; sg s; sh s]).

(** ** HMAC (RFC 2104) over SHA-256, block size 64. *)
Definition xor_octet (p : Z) (b : byte) : byte := Z_byte (Z.lxor (byte_Z b) p).

Definition hmac_sha256 (key msg : bytes) : bytes :=
  let k := if (64 <? length key)%nat then sha256 key else key in
  let block := k ++ repeat x00 (64 - length k) in
  sha256 (map (xor_octet 0x5C) block
            ++ sha256 (map (xor_octet 0x36) block ++ msg)).

(** One hexadecimal digit, lower case. *)
Definition hex_lower (d : N) : N :=
  if (d <? 10)%N then (0x30 + d)%N else (0x61 + (d - 10))%N.

Definition hex_octet (b : byte) : str :=
  let n := Byte.to_N b in [hex_lower (n / 16); hex_lower (n mod 16)].

(** [.hexdigest()]. *)
Definition hexdigest (digest : bytes) : str := concat (map hex_octet digest).

End Sha256.

(** The digests below are those of Python's [hashlib] and [hmac]. *)
Example sha256_samples :
  Sha256.hexdigest (Sha256.sha256 [])
  = lit "e3b0c44298fc1c149afbf4c8996fb92427ae41e4649b934ca495991b7852b855" ∧
  Sha256.hexdigest (Sha256.sha256 ["a"; "b"; "c"]%byte)
  = lit "ba7816bf8f01cfea414140de5dae2223b00361a396177a9cb410ff61f20015ad" ∧
  Sha256.hexdigest (Sha256.sha256 (repeat "a"%byte 100))
  = lit "2816597888e4a0d3a36b82b83316ab32680eb8f00f8cd3b904d681246d285a0e".
Proof. repeat split; vm_compute; reflexivity. Qed.

Example hmac_samples :
  Sha256.hexdigest (Sha256.hmac_sha256 (repeat "k"%byte 100) ["m"; "s"; "g"]%byte)
  = lit "bd56a1782c2830e8abc6ed866a57a1230661e650b84c62f7ee3accc5fa5af491".
Proof. vm_compute; reflexivity. Qed.

(* ================================================================== *)
(** * requests: [Request], [prepare], [Response]                       *)
(* ================================================================== *)

Module Requests.

(** [Request(method, url, params=..., json=...)]; [headers] is the one
    attribute the client mutates after construction. *)
Record Request := mkRequest {
  method : str;
  url : str;
  params : value;
  json : value;
  headers : gmap str value;
}.

Record PreparedRequest := mkPrepared {
  p_method : str;
  p_url : str;
  p_headers : gmap str value;
  p_body : option bytes;
}.

Record Response := mkResponse {
  status_code : Z;
  content : bytes;
}.

(** What lies outside the repository and is only called: URL preparation
    and splitting, the JSON codec, header validation and the network. *)
Class Transport := {
  (** the URL sent, from [url] and [params] (query string merged in) *)
  prepare_url : str → value → result str;
  (** [urlsplit]: path and query of a prepared URL, without scheme or host *)
  path_and_query : str → str;
  (** [json.dumps(data).encode('utf-8')] *)
  json_dumps : value → result bytes;
  (** header validation and the content headers of a body *)
  prepare_headers : gmap str value → option bytes → result (gmap str value);
  (** [json.loads(content)]; [None] when the content is not JSON *)
  json_loads : bytes → option value;
  (** [session.send(prepared)] *)
  send : PreparedRequest → result Response;
}.

(** [s.upper()] on the letters of ASCII; other code points are kept (the
    methods the client sends are ASCII). *)
Definition upper (s : str) : str :=
  map (λ c, if ((0x61 <=? c) && (c <=? 0x7A))%N then (c - 0x20)%N else c) s.

Definition is_upper (s : str) : bool :=
  forallb (λ c, negb ((0x61 <=? c) && (c <=? 0x7A))%N) s.

Section prepare.
Context `{Transport}.

(** [prepare_body]: a body exists only for a request built with [json=]. *)
Definition prepare_body (data : value) : result (option bytes) :=
  match data with
  | VNone => Ok None
  | _ => body ← json_dumps data; Ok (Some body)
  end.

(** [request.prepare()]: method, URL, headers, body, in this order. *)
Definition prepare (request : Request) : result PreparedRequest :=
  u ← prepare_url (url request) (params request);
  body ← prepare_body (json request);
  h ← prepare_headers (headers request) body;
  Ok (mkPrepared (upper (method request)) u h body).

(** [prepared.path_url]. *)
Definition path_url (prepared : PreparedRequest) : str :=
  path_and_query (p_url prepared).

End prepare.

(** [response.raise_for_status()]. *)
Definition raise_for_status (response : Response) : result unit :=
  if (400 <=? status_code response) && (status_code response <? 600)
  then raise (HTTPError (status_code response))
  else Ok tt.

End Requests.
Import Requests.

(* ================================================================== *)
(** * ftx_client.py                                                    *)
(* ================================================================== *)

Module Ftx.

Record FtxClient := mkClient {
  _api_endpoint : str;
  _api_key : value;
  _api_secret : value;
  _subaccount_name : value;
}.

Definition _validate_api_credentials (key secret : value) : result unit :=
  if negb (truthy key) then
    raise (ValueError (lit "API key cannot be empty."))
  else if negb (isinstance_str key) then
    raise (ValueError (lit "API key must be in a valid string format."))
  else if negb (truthy secret) then
    raise (ValueError (lit "API secret cannot be empty."))
  else if negb (isinstance_str secret) then
    raise (ValueError (lit "API secret must be in a valid string format."))
  else Ok tt.

(** The session the constructor opens is the [Transport] in scope. *)
Definition __init__ (api_endpoint : str) (api_key api_secret : value)
    (subaccount_name : value) : result FtxClient :=
  _ ← _validate_api_credentials api_key api_secret;
  Ok (mkClient api_endpoint api_key api_secret subaccount_name).

(** [v.encode()]: only a [str] has the method. *)
Definition encode (v : value) : result bytes :=
  match v with
  | VStr s => Utf8.encode s
  | _ => raise AttributeError
  end.

(** [urllib.parse.quote(v)] on a value. *)
Definition quote (v : value) : result str :=
  match v with
  | VStr s => Urllib.quote s
  | _ => raise TypeError
  end.

Definition set_headers (request : Request) (h : gmap str value) : Request :=
  mkRequest (method request) (url request) (params request) (json request) h.

Section client.
Context `{Transport}.

(** [ts] is the clock reading [int(time.time() * 1000)]. *)
Definition _sign_request (self : FtxClient) (ts : Z) (request : Request)
  : result Request :=
  prepared ← prepare request;
  text ← Utf8.encode (str_of_int ts ++ p_method prepared ++ path_url prepared);
  let signature_payload :=
    match p_body prepared with
    | Some body => if bool_decide (body = []) then text else text ++ body
    | None => text
    end in
  key ← encode (_api_secret self);
  let signature := Sha256.hexdigest (Sha256.hmac_sha256 key signature_payload) in
  let h := <[lit "FTX-KEY" := _api_key self]> (headers request) in
  let h := <[lit "FTX-SIGN" := VStr signature]> h in
  let h := <[lit "FTX-TS" := VStr (str_of_int ts)]> h in
  if truthy (_subaccount_name self) then
    name ← quote (_subaccount_name self);
    Ok (set_headers request (<[lit "FTX-SUBACCOUNT" := VStr name]> h))
  else Ok (set_headers request h).

Definition _process_response (response : Response) : result value :=
  match json_loads (content response) with
  | None => _ ← raise_for_status response; raise JSONDecodeError
  | Some data =>
      success ← getitem data (lit "success");
      if negb (truthy success) then
        error ← getitem data (lit "error");
        raise (Exception error)
      else getitem data (lit "result")
  end.

(** [_request(method, path, params=..., json=...)]: the keyword left out
    is [None]. *)
Definition _request (self : FtxClient) (ts : Z) (method path : str)
    (params json : value) : result value :=
  let request := mkRequest method (_api_endpoint self ++ path) params json ∅ in
  request ← _sign_request self ts request;
  prepared ← prepare request;
  response ← send prepared;
  _process_response response.

(** The request [_request] hands to [session.send]: its second and third
    lines, on their own. *)
Definition outgoing (self : FtxClient) (ts : Z) (method path : str)
    (params json : value) : result PreparedRequest :=
  let request := mkRequest method (_api_endpoint self ++ path) params json ∅ in
  request ← _sign_request self ts request;
  prepare request.

Definition _get (self : FtxClient) (ts : Z) (path : str) (params : value)
  : result value :=
  _request self ts (lit "GET") path params VNone.

Definition _post (self : FtxClient) (ts : Z) (path : str) (params : value)
  : result value :=
  _request self ts (lit "POST") path VNone params.

(** [a and b] where both operands are comparisons. *)
Definition and_then (a b : result bool) : result bool :=
  x ← a; if x : bool then b else Ok false.

Definition get_all_futures (self : FtxClient) (ts : Z) : result (list value) :=
  futures ← _get self ts (lit "futures") VNone;
  items ← py_iter futures;
  comprehension
    (λ future,
       and_then (t ← getitem future (lit "type");
                 Ok (py_eq t (VStr (lit "future"))))
         (and_then (e ← getitem future (lit "enabled");
                    Ok (py_eq e (VBool true)))
            (x ← getitem future (lit "expired");
             Ok (py_eq x (VBool false)))))
    items.

Definition get_all_underlying_futures (self : FtxClient) (ts : Z)
    (underlying : value) : result (list value) :=
  all_futures ← get_all_futures self ts;
  comprehension
    (λ future,
       u ← getitem future (lit "underlying"); Ok (py_eq u underlying))
    all_futures.

Definition get_next_underlying_future (self : FtxClient) (ts : Z)
    (underlying : value) : result value :=
  all_underlying_futures ← get_all_underlying_futures self ts underlying;
  py_min all_underlying_futures (λ future, getitem future (lit "expiry")).

Definition get_next_underlying_future_name (self : FtxClient) (ts : Z)
    (underlying : value) : result value :=
  all_underlying_futures ← get_all_underlying_futures self ts underlying;
  next ← py_min all_underlying_futures
           (λ future, getitem future (lit "expiry"));
  getitem next (lit "name").

Definition get_all_markets (self : FtxClient) (ts : Z) : result value :=
  _get self ts (lit "markets") VNone.

Definition get_single_market (self : FtxClient) (ts : Z) (market : str)
  : result value :=
  _get self ts (lit "markets/" ++ market) VNone.

Definition get_single_market_price (self : FtxClient) (ts : Z) (market : str)
  : result value :=
  m ← get_single_market self ts market;
  getitem m (lit "price").

(** An optional argument is [None] when the caller leaves it out; its
    default is then the one of the signature. *)
Definition place_order (self : FtxClient) (ts : Z) (market side size : value)
    (price type reduce_only ioc post_only client_id : option value)
  : result value :=
  let price := default VNone price in
  let type := default (VStr (lit "market")) type in
  let reduce_only := default (VBool false) reduce_only in
  let ioc := default (VBool false) ioc in
  let post_only := default (VBool false) post_only in
  let client_id := default VNone client_id in
  _post self ts (lit "orders")
    (VDict [(lit "market", market);
            (lit "side", side);
            (lit "price", price);
            (lit "size", size);
            (lit "type", type);
            (lit "reduceOnly", reduce_only);
            (lit "ioc", ioc);
            (lit "postOnly", post_only);
            (lit "clientId", client_id)]).

Definition get_open_orders (self : FtxClient) (ts : Z) (market : option value)
  : result value :=
  let market := default VNone market in
  _get self ts (lit "orders") (VDict [(lit "market", market)]).

Definition get_order_history (self : FtxClient) (ts : Z)
    (market side order_type start_time end_time : option value)
  : result value :=
  let market := default VNone market in
  let side := default VNone side in
  let order_type := default (VStr (lit "market")) order_type in
  let start_time := default VNone start_time in
  let end_time := default VNone end_time in
  _get self ts (lit "orders/history")
    (VDict [(lit "market", market);
            (lit "side", side);
            (lit "orderType", order_type);
            (lit "start_time", start_time);
            (lit "end_time", end_time)]).

End client.

End Ftx.
Import Ftx.

(* ================================================================== *)
(** * The vocabulary of the specification                              *)
(* ================================================================== *)

Module Spec.

(** The signature the exchange expects, in the words of the specification:
    HMAC-SHA256 under the API secret of the timestamp in decimal, the
    method, the path with its query and the body if there is one, in
    lower-case hexadecimal. *)
Definition spec_signature (secret : str) (ts : Z) (method path : str)
    (body : option bytes) : result str :=
  key ← Utf8.encode secret;
  t ← Utf8.encode (str_of_int ts);
  m ← Utf8.encode method;
  p ← Utf8.encode path;
  Ok (Sha256.hexdigest
        (Sha256.hmac_sha256 key (t ++ m ++ p ++ default [] body))).

(** A lower-case hexadecimal digit. *)
Definition is_lower_hex (c : N) : bool :=
  ((0x30 <=? c) && (c <=? 0x39) || (0x61 <=? c) && (c <=? 0x66))%N.

(** The field [k] of a record, [None] when the record has no such field. *)
Definition field (k : string) (v : value) : value :=
  match getitem v (lit k) with
  | Ok x => x
  | Err _ => VNone
  end.

(** The record [v] is a dictionary with every key of [ks]. *)
Definition has_fields (ks : list string) (v : value) : bool :=
  forallb (λ k, is_ok (getitem v (lit k))) ks.

(** What "list all futures" keeps: type "future", enabled, not expired. *)
Definition is_open_future (f : value) : bool :=
  py_eq (field "type" f) (VStr (lit "future"))
  && py_eq (field "enabled" f) (VBool true)
  && py_eq (field "expired" f) (VBool false).

(** What "list futures for underlying" keeps. *)
Definition is_open_future_of (underlying : value) (f : value) : bool :=
  is_open_future f && py_eq (field "underlying" f) underlying.

(** Expiry timestamps are all integers, or all strings: the two shapes
    [min] orders without raising. *)
Definition is_int (v : value) : Prop := ∃ z, v = VInt z.
Definition is_str (v : value) : Prop := ∃ s, v = VStr s.
Definition timestamps (vs : list value) : Prop :=
  Forall is_int vs ∨ Forall is_str vs.

(** The client without its subaccount. *)
Definition main_account (self : FtxClient) : FtxClient :=
  mkClient (_api_endpoint self) (_api_key self) (_api_secret self) VNone.

End Spec.
Import Spec.

(* ================================================================== *)
(** * A canned exchange, to run the client on                          *)
(* ================================================================== *)

Module Canned.

(** JSON text, written with ['] for the double quote. *)
Definition json_text (s : string) : bytes :=
  map (λ b, if Byte.eqb b x27 then x22 else b) (list_byte_of_string s).

(** Everything after the scheme and the host of an absolute URL. *)
Fixpoint after_host (slashes : nat) (u : str) : str :=
  match u with
  | [] => []
  | c :: u' =>
      if (c =? 0x2F)%N then
        match slashes with
        | O => u
        | S n => after_host n u'
        end
      else after_host slashes u'
  end.

(** The query string of string-valued parameters; a parameter that is
    [None] is left out, as [requests] does. *)
Fixpoint query (d : list (str * value)) : list str :=
  match d with
  | [] => []
  | (k, VStr v) :: d' => (k ++ lit "=" ++ v) :: query d'
  | _ :: d' => query d'
  end.

Fixpoint join (sep : str) (parts : list str) : str :=
  match parts with
  | [] => []
  | [part] => part
  | part :: rest => part ++ sep ++ join sep rest
  end.

Definition with_query (u : str) (params : value) : result str :=
  match params with
  | VNone => Ok u
  | VDict d =>
      match query d with
      | [] => Ok u
      | parts => Ok (u ++ lit "?" ++ join (lit "&") parts)
      end
  | _ => raise TransportError
  end.

Definition future (name underlying type : string) (enabled expired : bool)
    (expiry : value) : value :=
  VDict [(lit "name", VStr (lit name));
         (lit "underlying", VStr (lit underlying));
         (lit "type", VStr (lit type));
         (lit "enabled", VBool enabled);
         (lit "expired", VBool expired);
         (lit "expiry", expiry)].

Definition futures : list value :=
  [future "BTC-0329" "BTC" "future" true false (VInt 3000);
   future "BTC-PERP" "BTC" "perpetual" true false VNone;
   future "BTC-0101" "BTC" "future" true false (VInt 1000);
   future "ETH-0201" "ETH" "future" true false (VInt 500);
   future "BTC-1228" "BTC" "future" true true (VInt 100);
   future "BTC-0201" "BTC" "future" true false (VInt 2000);
   future "BTC-0401" "BTC" "future" false false (VInt 200)].

Definition futures_body : bytes :=
  json_text
    ("{'success': true, 'result': ["
     ++ "{'name': 'BTC-0329', 'underlying': 'BTC', 'type': 'future', 'enabled': true, 'expired': false, 'expiry': 3000}, "
     ++ "{'name': 'BTC-PERP', 'underlying': 'BTC', 'type': 'perpetual', 'enabled': true, 'expired': false, 'expiry': null}, "
     ++ "{'name': 'BTC-0101', 'underlying': 'BTC', 'type': 'future', 'enabled': true, 'expired': false, 'expiry': 1000}, "
     ++ "{'name': 'ETH-0201', 'underlying': 'ETH', 'type': 'future', 'enabled': true, 'expired': false, 'expiry': 500}, "
     ++ "{'name': 'BTC-1228', 'underlying': 'BTC', 'type': 'future', 'enabled': true, 'expired': true, 'expiry': 100}, "
     ++ "{'name': 'BTC-0201', 'underlying': 'BTC', 'type': 'future', 'enabled': true, 'expired': false, 'expiry': 2000}, "
     ++ "{'name': 'BTC-0401', 'underlying': 'BTC', 'type': 'future', 'enabled': false, 'expired': false, 'expiry': 200}]}")%string.

Definition result_body : bytes :=
  json_text "{'success': true, 'result': [1, 2, 3]}".
Definition error_body : bytes :=
  json_text "{'success': false, 'error': 'Invalid parameter'}".
Definition html_body : bytes := json_text "<html>Bad Gateway</html>".

(** The documents this exchange serves, parsed. *)
Definition loads (bs : bytes) : option value :=
  if bool_decide (bs = futures_body) then
    Some (VDict [(lit "success", VBool true); (lit "result", VList futures)])
  else if bool_decide (bs = result_body) then
    Some (VDict [(lit "success", VBool true);
                 (lit "result", VList [VInt 1; VInt 2; VInt 3])])
  else if bool_decide (bs = error_body) then
    Some (VDict [(lit "success", VBool false);
                 (lit "error", VStr (lit "Invalid parameter"))])
  else None.

(** A market order: buy 1.5 BTC-PERP, nothing else said. *)
Definition order : value :=
  VDict [(lit "market", VStr (lit "BTC-PERP"));
         (lit "side", VStr (lit "buy"));
         (lit "price", VNone);
         (lit "size", VFloat 1.5);
         (lit "type", VStr (lit "market"));
         (lit "reduceOnly", VBool false);
         (lit "ioc", VBool false);
         (lit "postOnly", VBool false);
         (lit "clientId", VNone)].

Definition order_body : bytes :=
  json_text
    ("{'market': 'BTC-PERP', 'side': 'buy', 'price': null, 'size': 1.5, "
     ++ "'type': 'market', 'reduceOnly': false, 'ioc': false, "
     ++ "'postOnly': false, 'clientId': null}")%string.

(** The one document it can write. *)
Definition dumps (v : value) : result bytes :=
  if py_eq v order && py_eq order v then Ok order_body
  else raise TransportError.

(** It answers [GET /api/futures] with the futures and anything else with
    the result [[1, 2, 3]]. *)
Definition transport : Transport := {|
  prepare_url := with_query;
  path_and_query u := after_host 2 u;
  json_dumps := dumps;
  prepare_headers h _ := Ok h;
  json_loads := loads;
  send p :=
    Ok (mkResponse 200
          (if bool_decide (after_host 2 (p_url p) = lit "/api/futures")
           then futures_body else result_body));
|}.

Definition endpoint : str := lit "https://ftx.com/api/".

Definition client : FtxClient :=
  mkClient endpoint (VStr (lit "key")) (VStr (lit "secret")) VNone.

(** The same account, trading on the subaccount "my sub". *)
Definition sub_client : FtxClient :=
  mkClient endpoint (VStr (lit "key")) (VStr (lit "secret"))
    (VStr (lit "my sub")).

Definition clock : Z := 1557246346499.

(** The headers signing adds, given the signature. *)
Definition signed_headers (signature : string) : gmap str value :=
  <[lit "FTX-TS" := VStr (lit "1557246346499")]>
    (<[lit "FTX-SIGN" := VStr (lit signature)]>
       (<[lit "FTX-KEY" := VStr (lit "key")]> ∅)).

(** [GET markets], before and after signing, and as sent.  The digests
    are those Python's [hmac] computes for the key [secret]. *)
Definition markets_request : Request :=
  mkRequest (lit "GET") (endpoint ++ lit "markets") VNone VNone ∅.

Definition markets_signed : Request :=
  set_headers markets_request
    (signed_headers
       "08772dabca52bc34268488622fc8c31e66e480834a367d796d648abf2f0937a2").

Definition markets_sent : PreparedRequest :=
  mkPrepared (lit "GET") (endpoint ++ lit "markets") (headers markets_signed)
    None.

Definition markets_sub_signed : Request :=
  set_headers markets_request
    (<[lit "FTX-SUBACCOUNT" := VStr (lit "my%20sub")]>
       (headers markets_signed)).

(** [POST orders] with the market order, as sent. *)
Definition order_sent : PreparedRequest :=
  mkPrepared (lit "POST") (endpoint ++ lit "orders")
    (signed_headers
       "5fa2a1f4a57e79f9b75c8ed572dc78cdbd5eee5d31e0ba565a92b81bf050d2ff")
    (Some order_body).

(** [GET orders/history] with the default parameters, as sent. *)
Definition history_sent : PreparedRequest :=
  mkPrepared (lit "GET") (endpoint ++ lit "orders/history?orderType=market")
    (signed_headers
       "8e9b49811c9a0a5cedcef9dbca2ed32ca2dbb7bc14d69bcd30afadcb61772b69")
    None.

End Canned.

Example canned_signature :
  _sign_request (H:=Canned.transport) Canned.client Canned.clock
    (mkRequest (lit "get") (Canned.endpoint ++ lit "markets") VNone VNone ∅)
  = Ok (set_headers
          (mkRequest (lit "get") (Canned.endpoint ++ lit "markets") VNone
             VNone ∅)
          (headers Canned.markets_signed)).
Proof. vm_compute. reflexivity. Qed.

Example canned_order_sent :
  outgoing (H:=Canned.transport) Canned.client Canned.clock (lit "POST")
    (lit "orders") VNone Canned.order
  = Ok Canned.order_sent.
Proof. vm_compute. reflexivity. Qed.

Example canned_history_sent :
  outgoing (H:=Canned.transport) Canned.client Canned.clock (lit "GET")
    (lit "orders/history")
    (VDict [(lit "market", VNone); (lit "side", VNone);
            (lit "orderType", VStr (lit "market"));
            (lit "start_time", VNone); (lit "end_time", VNone)]) VNone
  = Ok Canned.history_sent.
Proof. vm_compute. reflexivity. Qed.

Example canned_markets :
  get_all_markets (H:=Canned.transport) Canned.client Canned.clock
  = Ok (VList [VInt 1; VInt 2; VInt 3]).
Proof. vm_compute. reflexivity. Qed.

Example canned_next_future :
  get_next_underlying_future_name (H:=Canned.transport) Canned.client
    Canned.clock (VStr (lit "BTC"))
  = Ok (VStr (lit "BTC-0101")).
Proof. vm_compute. reflexivity. Qed.

Example canned_no_future :
  get_next_underlying_future (H:=Canned.transport) Canned.client
    Canned.clock (VStr (lit "XRP"))
  = Err (ValueError (lit "min() arg is an empty sequence")).
Proof. vm_compute. reflexivity. Qed.

(** A subaccount named with a lone surrogate cannot be sent: [quote]
    raises while signing. *)
Example canned_surrogate_subaccount :
  _sign_request (H:=Canned.transport)
    (mkClient Canned.endpoint (VStr (lit "key")) (VStr (lit "secret"))
       (VStr [0xD800%N]))
    Canned.clock Canned.markets_request
  = Err UnicodeEncodeError.
Proof. vm_compute. reflexivity. Qed.

(* ================================================================== *)
(** * Exchanges that answer one thing                                  *)
(* ================================================================== *)

Module Stub.

(** An exchange whose every response has the status [status] and a body
    that parses to [data] ([None]: the body is not JSON). *)
Definition answering (status : Z) (data : option value) : Transport := {|
  prepare_url := Canned.with_query;
  path_and_query u := Canned.after_host 2 u;
  json_dumps := Canned.dumps;
  prepare_headers h _ := Ok h;
  json_loads _ := data;
  send _ := Ok (mkResponse status []);
|}.

(** The envelope of a success and of a failure. *)
Definition success (r : value) : value :=
  VDict [(lit "success", VBool true); (lit "result", r)].
Definition failure (e : string) : value :=
  VDict [(lit "success", VBool false); (lit "error", VStr (lit e))].

End Stub.

(* ================================================================== *)
(** * Vocabulary for the edge cases                                    *)
(* ================================================================== *)

Module Edge.

(** The four headers signing writes. *)
Definition auth_headers : list str :=
  [lit "FTX-KEY"; lit "FTX-SIGN"; lit "FTX-TS"; lit "FTX-SUBACCOUNT"].

(** The characters [quote] lets through or produces: the safe ones (letters,
    digits, [_.-~/]) and the percent sign. *)
Definition is_quoted_char (c : N) : bool :=
  Urllib.safe c || (c =? Urllib.percent)%N.

(** A decimal numeral read back: the inverse of [str_of_int]. *)
Definition int_of_str (s : str) : option Z :=
  Z.of_int <$> NilZero.int_of_string
                 (string_of_list_ascii (map ascii_of_N s)).

(** The fields the comprehension of "list all futures" reads on one entry:
    [type] always, [enabled] only on a future, [expired] only on an enabled
    future. *)
Definition reads_cleanly (f : value) : bool :=
  is_ok (getitem f (lit "type"))
  && (if py_eq (field "type" f) (VStr (lit "future"))
      then is_ok (getitem f (lit "enabled"))
           && (if py_eq (field "enabled" f) (VBool true)
               then is_ok (getitem f (lit "expired"))
               else true)
      else true).

(** The condition of that comprehension. *)
Definition open_future_test (future : value) : result bool :=
  t ← getitem future (lit "type");
  if py_eq t (VStr (lit "future")) then
    e ← getitem future (lit "enabled");
    if py_eq e (VBool true) then
      x ← getitem future (lit "expired"); Ok (py_eq x (VBool false))
    else Ok false
  else Ok false.

End Edge.
Import Edge.

(* ================================================================== *)
(** * Requests and lists to try the edge cases on                      *)
(* ================================================================== *)

Module Sent.

(** Requests of the canned client as they leave, with the digests Python's
    [hmac] computes for them. *)
Definition get (path signature : string) : PreparedRequest :=
  mkPrepared (lit "GET") (Canned.endpoint ++ lit path)
    (Canned.signed_headers signature) None.

Definition futures : PreparedRequest :=
  get "futures"
    "ecf044e0a69924cb7e5e71f01e7ab0967bf750f52b9de2510f7882b7502859ad".
Definition orders : PreparedRequest :=
  get "orders"
    "ff411d7e6784ce581d4f2fe6695651f64c0edf3bda101972c3ce5dde551b1991".
Definition market : PreparedRequest :=
  get "markets/BTC-PERP"
    "2396f459cd780b05c2b18690ec99658fb3d2aa2b0cb82d8b3e198a7e50f11ab9".
Definition empty_post : PreparedRequest :=
  mkPrepared (lit "POST") (Canned.endpoint ++ lit "orders")
    (Canned.signed_headers
       "021047c3005dc0577623966cf98b707638311ed15cfaccfed783af9994bffa9f")
    None.

(** Three futures, the two earliest with the same expiry; and a list whose
    perpetual has no flags. *)
Definition tied : list value :=
  [Canned.future "BTC-0329" "BTC" "future" true false (VInt 2000);
   Canned.future "BTC-0101" "BTC" "future" true false (VInt 1000);
   Canned.future "BTC-0102" "BTC" "future" true false (VInt 1000)].

Definition sparse : list value :=
  [VDict [(lit "name", VStr (lit "BTC-PERP"));
          (lit "type", VStr (lit "perpetual"))];
   Canned.future "BTC-0101" "BTC" "future" true false (VInt 1000)].

Definition broken : list value :=
  [Canned.future "BTC-0101" "BTC" "future" true false (VInt 1000);
   VDict [(lit "name", VStr (lit "BTC-0201"))];
   VInt 7].

End Sent.

Example sent_requests :
  outgoing (H:=Canned.transport) Canned.client Canned.clock (lit "GET")
    (lit "futures") VNone VNone = Ok Sent.futures
  ∧ outgoing (H:=Canned.transport) Canned.client Canned.clock (lit "GET")
      (lit "orders") (VDict [(lit "market", VNone)]) VNone = Ok Sent.orders
  ∧ outgoing (H:=Canned.transport) Canned.client Canned.clock (lit "GET")
      (lit "markets/BTC-PERP") VNone VNone = Ok Sent.market
  ∧ outgoing (H:=Canned.transport) Canned.client Canned.clock (lit "POST")
      (lit "orders") VNone VNone = Ok Sent.empty_post.
Proof. split; [| split; [| split]]; vm_compute; reflexivity. Qed.


(* ================================================================== *)
(** * Reasoning about the error monad                                  *)
(* ================================================================== *)

Lemma bind_Ok {A B} (m : result A) (f : A → result B) (b : B) :
  m ≫= f = Ok b ↔ ∃ a, m = Ok a ∧ f a = Ok b.
Proof.
  destruct m as [a|e]; simpl; split.
  - intros Hf. exists a. split; [reflexivity | exact Hf].
  - intros (a' & [= <-] & Hf). exact Hf.
  - intros [=].
  - intros (a' & [=] & _).
Qed.

(** Splits a successful sequence of binds in a hypothesis into its steps. *)
Ltac inv_ok H :=
  repeat match type of H with
  | _ ≫= _ = Ok _ =>
      let a := fresh "a" in
      let Ha := fresh "Ha" in
      apply bind_Ok in H as (a & Ha & H)
  end.

(* ================================================================== *)
(** * The constructor validates the credentials (C5)                   *)
(* ================================================================== *)

Lemma truthy_str s : truthy (VStr s) = true ↔ s ≠ [].
Proof.
  simpl. rewrite negb_true_iff, bool_decide_eq_false. reflexivity.
Qed.

(** Validation passes exactly on two truthy strings. *)
Lemma validate_ok key secret :
  _validate_api_credentials key secret = Ok tt ↔
  truthy key = true ∧ isinstance_str key = true ∧
  truthy secret = true ∧ isinstance_str secret = true.
Proof.
  unfold _validate_api_credentials.
  destruct (truthy key), (isinstance_str key), (truthy secret),
    (isinstance_str secret); simpl;
    (split;
     [ try (intros [=]); repeat split; reflexivity
     | try (intros (? & ? & ? & ?); discriminate); intros; reflexivity ]).
Qed.

(** Whatever validation raises is a [ValueError]. *)
Lemma validate_raises key secret e :
  _validate_api_credentials key secret = Err e → ∃ msg, e = ValueError msg.
Proof.
  unfold _validate_api_credentials, raise.
  repeat match goal with
  | |- context [if ?b then _ else _] => destruct b
  end; intros [= <-]; eauto.
Qed.

(** C5: constructing the client raises a validation error (ValueError) if
    and only if the API key or the API secret is empty or not a string; on a
    non-empty string key and a non-empty string secret construction succeeds
    and stores the four arguments. *)
Theorem init_validates_credentials api_endpoint key secret subaccount_name :
  ((∃ msg, __init__ api_endpoint key secret subaccount_name
           = Err (ValueError msg))
   ↔ (truthy key = false ∨ isinstance_str key = false ∨
      truthy secret = false ∨ isinstance_str secret = false))
  ∧ (∀ k s, key = VStr k → secret = VStr s → k ≠ [] → s ≠ [] →
       __init__ api_endpoint key secret subaccount_name
       = Ok (mkClient api_endpoint key secret subaccount_name)).
Proof.
  unfold __init__.
  destruct (_validate_api_credentials key secret) as [[]|e] eqn:Hv; simpl.
  - apply validate_ok in Hv as (Hk & Hk' & Hs & Hs').
    split; [split |].
    + intros [msg [=]].
    + rewrite Hk, Hk', Hs, Hs'. intros [|[|[|]]]; discriminate.
    + reflexivity.
  - split; [split |].
    + intros _.
      destruct (truthy key) eqn:Hk; [| tauto].
      destruct (isinstance_str key) eqn:Hk'; [| tauto].
      destruct (truthy secret) eqn:Hs; [| tauto].
      destruct (isinstance_str secret) eqn:Hs'; [| tauto].
      assert (_validate_api_credentials key secret = Ok tt) as Hok
        by (apply validate_ok; tauto).
      congruence.
    + intros _. apply validate_raises in Hv as [msg ->]. eauto.
    + intros k s -> -> Hk Hs.
      assert (_validate_api_credentials (VStr k) (VStr s) = Ok tt) as Hok.
      { apply validate_ok. rewrite !truthy_str. simpl. tauto. }
      congruence.
Qed.

Lemma init_validates_credentials_witness :
  __init__ Canned.endpoint (VStr (lit "key")) (VStr (lit "secret")) VNone
  = Ok Canned.client.
Proof.
  apply (init_validates_credentials Canned.endpoint (VStr (lit "key"))
           (VStr (lit "secret")) VNone) with (k := lit "key") (s := lit "secret");
    [reflexivity | reflexivity | discriminate | discriminate].
Defined.

(** The four failing combinations of the specification, and two more. *)
Example init_rejects :
  is_ok (__init__ Canned.endpoint (VStr []) (VStr (lit "secret")) VNone) = false ∧
  is_ok (__init__ Canned.endpoint (VStr (lit "key")) (VStr []) VNone) = false ∧
  is_ok (__init__ Canned.endpoint (VInt 7) (VStr (lit "secret")) VNone) = false ∧
  is_ok (__init__ Canned.endpoint (VStr (lit "key")) (VInt 7) VNone) = false ∧
  is_ok (__init__ Canned.endpoint VNone (VStr (lit "secret")) VNone) = false ∧
  is_ok (__init__ Canned.endpoint (VStr (lit "key")) (VList []) VNone) = false.
Proof. repeat split; reflexivity. Qed.

(* ================================================================== *)
(** * Response normalisation (C3, C4)                                  *)
(* ================================================================== *)

Section normalizer.
Context `{Transport}.

(** C3: when the body parses as a JSON object with a [success] field, the
    normaliser raises an exception whose argument, hence whose message, is
    the envelope's [error] if [success] is false, and returns the envelope's
    [result] value unchanged if [success] is true. *)
Theorem process_response_envelope response data success :
  json_loads (content response) = Some data →
  getitem data (lit "success") = Ok success →
  (truthy success = false →
   ∀ error, getitem data (lit "error") = Ok error →
            _process_response response = Err (Exception error))
  ∧ (truthy success = true →
     ∀ r, getitem data (lit "result") = Ok r →
          _process_response response = Ok r).
Proof.
  intros Hjson Hsuccess. unfold _process_response.
  rewrite Hjson, Hsuccess. simpl.
  split; intros -> v ->; reflexivity.
Qed.

(** C4: when the body does not parse as JSON the call always fails, whatever
    the status: with the HTTP status error on a 4xx or 5xx status, with the
    parse error otherwise; the body is not looked at again. *)
Theorem process_response_not_json response :
  json_loads (content response) = None →
  _process_response response
  = Err (if (400 <=? status_code response) && (status_code response <? 600)
         then HTTPError (status_code response) else JSONDecodeError).
Proof.
  intros Hjson. unfold _process_response, raise_for_status. rewrite Hjson.
  destruct ((400 <=? status_code response) && (status_code response <? 600));
    reflexivity.
Qed.

End normalizer.

Lemma process_response_envelope_witness :
  _process_response (H:=Canned.transport) (mkResponse 400 Canned.error_body)
  = Err (Exception (VStr (lit "Invalid parameter")))
  ∧ _process_response (H:=Canned.transport) (mkResponse 200 Canned.result_body)
    = Ok (VList [VInt 1; VInt 2; VInt 3]).
Proof.
  split.
  - eapply (process_response_envelope (H:=Canned.transport)
              (mkResponse 400 Canned.error_body) _ (VBool false));
      reflexivity.
  - eapply (process_response_envelope (H:=Canned.transport)
              (mkResponse 200 Canned.result_body) _ (VBool true));
      reflexivity.
Defined.

Lemma process_response_not_json_witness :
  _process_response (H:=Canned.transport) (mkResponse 502 Canned.html_body)
  = Err (HTTPError 502)
  ∧ _process_response (H:=Canned.transport) (mkResponse 200 Canned.html_body)
    = Err JSONDecodeError.
Proof.
  split.
  - apply (process_response_not_json (H:=Canned.transport)
             (mkResponse 502 Canned.html_body)). reflexivity.
  - apply (process_response_not_json (H:=Canned.transport)
             (mkResponse 200 Canned.html_body)). reflexivity.
Defined.

(* ================================================================== *)
(** * UTF-8 round trip                                                 *)
(* ================================================================== *)

(** Linear arithmetic with division and remainder by constants. *)
Ltac ndiv_lia := zify; Z.to_euclidean_division_equations; lia.

Lemma octet_to_N n : (n < 256)%N → Byte.to_N (Utf8.octet n) = n.
Proof.
  intros Hn. unfold Utf8.octet.
  destruct (Byte.of_N n) as [b|] eqn:Hb.
  - apply Byte.to_of_N. exact Hb.
  - apply Byte.of_N_None_iff in Hb. lia.
Qed.

Lemma lor_add (tag a k x : N) :
  tag = (a * 2 ^ k)%N → (x < 2 ^ k)%N → N.lor tag x = (tag + x)%N.
Proof.
  intros -> Hx.
  rewrite <- N.lxor_lor, N.add_nocarry_lxor; try reflexivity.
  all: apply N.bits_inj_0; intros i; rewrite N.land_spec.
  all: destruct (N.lt_ge_cases i k) as [Hi|Hi].
  all: try (rewrite N.mul_pow2_bits_low by exact Hi; reflexivity).
  all: rewrite <- (N.mod_small x (2 ^ k)) by exact Hx.
  all: rewrite N.mod_pow2_bits_high by exact Hi; apply andb_false_r.
Qed.

Lemma payload_mod n : Utf8.payload n = (n mod 64)%N.
Proof. apply (N.land_ones n 6). Qed.

Lemma cont_to_N n : Byte.to_N (Utf8.cont n) = (128 + n mod 64)%N.
Proof.
  unfold Utf8.cont. change (N.land n 63) with (Utf8.payload n).
  rewrite payload_mod.
  rewrite (lor_add 128 2 6) by (reflexivity || (change (2 ^ 6)%N with 64%N; ndiv_lia)).
  apply octet_to_N. ndiv_lia.
Qed.

Lemma lead_to_N tag a k x :
  tag = (a * 2 ^ k)%N → (x < 2 ^ k)%N → (tag + x < 256)%N →
  Byte.to_N (Utf8.lead tag x) = (tag + x)%N.
Proof.
  intros Ht Hx Hb. unfold Utf8.lead. rewrite (lor_add tag a k) by assumption.
  apply octet_to_N. exact Hb.
Qed.

Ltac pow2 :=
  change (2 ^ 3)%N with 8%N in *; change (2 ^ 4)%N with 16%N in *;
  change (2 ^ 5)%N with 32%N in *; change (2 ^ 6)%N with 64%N in *;
  change (2 ^ 12)%N with 4096%N in *; change (2 ^ 18)%N with 262144%N in *.

(** Resolves the range tests of the decoder, one after the other. *)
Ltac resolve_test :=
  match goal with
  | |- context [(?a <? ?b)%N] =>
      destruct (N.ltb_spec a b); [try (exfalso; lia) | try (exfalso; lia)]
  | |- context [(?a <=? ?b)%N] =>
      destruct (N.leb_spec a b); [try (exfalso; lia) | try (exfalso; lia)]
  | |- context [(?a =? ?b)%N] =>
      destruct (N.eqb_spec a b); [try (exfalso; lia) | try (exfalso; lia)]
  end.

Lemma decode_first_1 c rest :
  (c < 0x80)%N → Utf8.decode_first (Utf8.octet c) rest = (c, 0%nat).
Proof.
  intros Hc. unfold Utf8.decode_first.
  rewrite octet_to_N by lia.
  resolve_test. reflexivity.
Qed.

(** The 6-bit groups of a code point. *)
Lemma groups c :
  (c mod 64 < 64)%N ∧ ((c / 64) mod 64 < 64)%N ∧ ((c / 4096) mod 64 < 64)%N ∧
  (c / 64 = 64 * (c / 4096) + (c / 64) mod 64)%N ∧
  (c / 4096 = 64 * (c / 262144) + (c / 4096) mod 64)%N ∧
  (c = 64 * (c / 64) + c mod 64)%N.
Proof. ndiv_lia. Qed.

Lemma decode_first_2 c rest :
  (0x80 <= c < 0x800)%N →
  Utf8.decode_first (Utf8.lead 0xC0 (N.shiftr c 6)) (Utf8.cont c :: rest)
  = (c, 1%nat).
Proof.
  intros Hc. unfold Utf8.decode_first, Utf8.is_cont.
  rewrite cont_to_N, N.shiftr_div_pow2. pow2.
  destruct (groups c) as (H0 & _ & _ & _ & _ & Hc0).
  set (x0 := (c mod 64)%N) in *. set (x1 := (c / 64)%N) in *.
  clearbody x0 x1.
  rewrite (lead_to_N 0xC0 6 5) by (pow2; first [reflexivity | lia]).
  rewrite payload_mod.
  change 31%N with (N.ones 5). rewrite N.land_ones, N.shiftl_mul_pow2. pow2.
  replace ((192 + x1) mod 32)%N with x1 by ndiv_lia.
  replace ((128 + x0) mod 64)%N with x0 by ndiv_lia.
  rewrite (lor_add (x1 * 64) x1 6 x0) by (pow2; first [reflexivity | lia]).
  replace (x1 * 64 + x0)%N with c by lia.
  repeat (resolve_test; cbn [andb negb]). reflexivity.
Qed.

Lemma decode_first_3 c rest :
  (0x800 <= c < 0x10000)%N → is_surrogate c = false →
  Utf8.decode_first (Utf8.lead 0xE0 (N.shiftr c 12))
    (Utf8.cont (N.shiftr c 6) :: Utf8.cont c :: rest)
  = (c, 2%nat).
Proof.
  intros Hc Hs. unfold Utf8.decode_first, Utf8.is_cont.
  assert (c < 0xD800 ∨ 0xDFFF < c)%N as Hs'.
  { unfold is_surrogate in Hs. apply andb_false_iff in Hs as [Hs|Hs].
    - apply N.leb_gt in Hs. left. exact Hs.
    - apply N.leb_gt in Hs. right. exact Hs. }
  clear Hs.
  rewrite !cont_to_N, !N.shiftr_div_pow2. pow2.
  destruct (groups c) as (H0 & H1 & _ & Hc1 & _ & Hc0).
  set (x0 := (c mod 64)%N) in *. set (x1 := ((c / 64) mod 64)%N) in *.
  set (x2 := (c / 4096)%N) in *. set (y := (c / 64)%N) in *.
  clearbody x0 x1 x2 y.
  rewrite (lead_to_N 0xE0 14 4) by (pow2; first [reflexivity | lia]).
  rewrite !payload_mod.
  change 15%N with (N.ones 4). rewrite N.land_ones, !N.shiftl_mul_pow2. pow2.
  replace ((224 + x2) mod 16)%N with x2 by ndiv_lia.
  replace ((128 + x1) mod 64)%N with x1 by ndiv_lia.
  replace ((128 + x0) mod 64)%N with x0 by ndiv_lia.
  rewrite (lor_add (x1 * 64) x1 6 x0) by (pow2; first [reflexivity | lia]).
  rewrite (lor_add (x2 * 4096) x2 12) by (pow2; first [reflexivity | lia]).
  replace (x2 * 4096 + (x1 * 64 + x0))%N with c by lia.
  repeat (resolve_test; cbn [andb negb]); reflexivity.
Qed.

Lemma decode_first_4 c rest :
  (0x10000 <= c < 0x110000)%N →
  Utf8.decode_first (Utf8.lead 0xF0 (N.shiftr c 18))
    (Utf8.cont (N.shiftr c 12) :: Utf8.cont (N.shiftr c 6) :: Utf8.cont c
       :: rest)
  = (c, 3%nat).
Proof.
  intros Hc. unfold Utf8.decode_first, Utf8.is_cont.
  rewrite !cont_to_N, !N.shiftr_div_pow2. pow2.
  destruct (groups c) as (H0 & H1 & H2 & Hc1 & Hc2 & Hc0).
  set (x0 := (c mod 64)%N) in *. set (x1 := ((c / 64) mod 64)%N) in *.
  set (x2 := ((c / 4096) mod 64)%N) in *. set (x3 := (c / 262144)%N) in *.
  set (y := (c / 64)%N) in *. set (z := (c / 4096)%N) in *.
  clearbody x0 x1 x2 x3 y z.
  rewrite (lead_to_N 0xF0 30 3) by (pow2; first [reflexivity | lia]).
  rewrite !payload_mod.
  change 7%N with (N.ones 3). rewrite N.land_ones, !N.shiftl_mul_pow2. pow2.
  replace ((240 + x3) mod 8)%N with x3 by ndiv_lia.
  replace ((128 + x2) mod 64)%N with x2 by ndiv_lia.
  replace ((128 + x1) mod 64)%N with x1 by ndiv_lia.
  replace ((128 + x0) mod 64)%N with x0 by ndiv_lia.
  rewrite (lor_add (x1 * 64) x1 6 x0) by (pow2; first [reflexivity | lia]).
  rewrite (lor_add (x2 * 4096) x2 12) by (pow2; first [reflexivity | lia]).
  rewrite (lor_add (x3 * 262144) x3 18) by (pow2; first [reflexivity | lia]).
  replace (x3 * 262144 + (x2 * 4096 + (x1 * 64 + x0)))%N with c by lia.
  repeat (resolve_test; cbn [andb negb]); reflexivity.
Qed.

Lemma decode_from_lead b r :
  Utf8.decode_from 0 (b :: r)
  = (Utf8.decode_first b r).1 :: Utf8.decode_from (Utf8.decode_first b r).2 r.
Proof. simpl. destruct (Utf8.decode_first b r). reflexivity. Qed.

(** Decoding reads back a code point that was encoded, and resumes right
    after it. *)
Lemma decode_encode_code_point c bs rest :
  Utf8.encode_code_point c = Ok bs →
  Utf8.decode (bs ++ rest) = c :: Utf8.decode rest.
Proof.
  unfold Utf8.encode_code_point, Utf8.decode, raise.
  destruct (N.ltb_spec c 0x80).
  { intros [= <-]. cbn [app]. rewrite decode_from_lead, decode_first_1 by lia.
    reflexivity. }
  destruct (N.ltb_spec c 0x800).
  { intros [= <-]. cbn [app]. rewrite decode_from_lead, decode_first_2 by lia.
    reflexivity. }
  destruct (is_surrogate c) eqn:Hs; [intros [=] |].
  destruct (N.ltb_spec c 0x10000).
  { intros [= <-]. cbn [app].
    rewrite decode_from_lead, decode_first_3 by (assumption || lia).
    reflexivity. }
  destruct (N.ltb_spec c 0x110000); [| intros [=]].
  intros [= <-]. cbn [app]. rewrite decode_from_lead, decode_first_4 by lia.
  reflexivity.
Qed.

Lemma encode_scalar c :
  is_scalar c = true → ∃ bs, Utf8.encode_code_point c = Ok bs.
Proof.
  unfold is_scalar, is_code_point, Utf8.encode_code_point.
  intros [Hc Hs%negb_true_iff]%andb_true_iff. rewrite Hs, Hc.
  repeat match goal with |- context [if ?b then _ else _] => destruct b end;
    eauto.
Qed.

Lemma encode_code_point_ok c bs :
  Utf8.encode_code_point c = Ok bs → is_scalar c = true.
Proof.
  unfold is_scalar, is_code_point, Utf8.encode_code_point, raise.
  destruct (N.ltb_spec c 0x80).
  { intros _. unfold is_surrogate.
    apply andb_true_iff. split; [apply N.ltb_lt; lia |].
    apply negb_true_iff, andb_false_iff. left. apply N.leb_gt. lia. }
  destruct (N.ltb_spec c 0x800).
  { intros _. unfold is_surrogate.
    apply andb_true_iff. split; [apply N.ltb_lt; lia |].
    apply negb_true_iff, andb_false_iff. left. apply N.leb_gt. lia. }
  destruct (is_surrogate c); [intros [=] |].
  destruct (N.ltb_spec c 0x10000).
  { intros _. apply andb_true_iff. split; [apply N.ltb_lt; lia | reflexivity]. }
  destruct (N.ltb_spec c 0x110000); [| intros [=]].
  intros _. reflexivity.
Qed.

(** [s.encode()] succeeds exactly on the strings without a lone surrogate. *)
Lemma encode_ok_iff s :
  (∃ bs, Utf8.encode s = Ok bs) ↔ Forall (λ c, is_scalar c = true) s.
Proof.
  induction s as [|c s IH]; simpl.
  - split; [constructor | eauto].
  - split.
    + intros [bs Hbs]. inv_ok Hbs.
      constructor; [eapply encode_code_point_ok; eassumption |].
      apply IH. eauto.
    + intros Hall. apply Forall_cons in Hall as [Hc Hs].
      apply encode_scalar in Hc as [b ->]. apply IH in Hs as [bs ->].
      simpl. eauto.
Qed.

(** Round trip: decoding what [encode] produced gives the string back. *)
Lemma decode_encode s bs : Utf8.encode s = Ok bs → Utf8.decode bs = s.
Proof.
  revert bs. induction s as [|c s IH]; intros bs; simpl.
  - intros [= <-]. reflexivity.
  - intros Hbs. inv_ok Hbs. injection Hbs as <-.
    erewrite decode_encode_code_point by eassumption.
    f_equal. apply IH. assumption.
Qed.

(* ================================================================== *)
(** * Percent-encoding round trip                                      *)
(* ================================================================== *)

(** Unescaping reads back an escaped octet and resumes right after it. *)
Lemma unquote_quote_octet b rest :
  Urllib.unquote_to_bytes (map Utf8.octet (Urllib.quote_octet b) ++ rest)
  = b :: Urllib.unquote_to_bytes rest.
Proof. destruct b; reflexivity. Qed.

Lemma unquote_quote_bytes bs :
  Urllib.unquote_to_bytes (map Utf8.octet (Urllib.quote_from_bytes bs)) = bs.
Proof.
  unfold Urllib.quote_from_bytes.
  induction bs as [|b bs IH]; [reflexivity |].
  simpl concat. rewrite map_app, unquote_quote_octet, IH. reflexivity.
Qed.

Lemma quote_octet_ascii b :
  forallb (λ c, (c <? 0x80)%N) (Urllib.quote_octet b) = true.
Proof. destruct b; reflexivity. Qed.

Lemma quote_from_bytes_ascii bs :
  Forall (λ c, (c < 0x80)%N) (Urllib.quote_from_bytes bs).
Proof.
  unfold Urllib.quote_from_bytes.
  induction bs as [|b bs IH]; simpl; [constructor |].
  apply Forall_app. split; [| exact IH].
  apply Forall_forall. intros c Hc%list_elem_of_In. apply N.ltb_lt.
  revert c Hc. apply forallb_forall, quote_octet_ascii.
Qed.

Lemma unquote_parts_ascii s run :
  Forall (λ c, (c < 0x80)%N) s →
  Urllib.unquote_parts run s
  = Urllib.unquote_run (rev (map Utf8.octet s) ++ run).
Proof.
  intros Hs. revert run.
  induction Hs as [|c s Hc Hs IH]; intros run; simpl.
  - reflexivity.
  - apply N.ltb_lt in Hc. rewrite Hc, IH, <- app_assoc. reflexivity.
Qed.

(** An octet escaped without a [%] is an ASCII octet, kept as it is. *)
Lemma quote_octet_plain b :
  Urllib.percent ∉ Urllib.quote_octet b →
  Urllib.quote_octet b = [Byte.to_N b] ∧ (Byte.to_N b < 0x80)%N.
Proof.
  intros Hb. 
  assert (bool_decide (Urllib.percent ∈ Urllib.quote_octet b) = false) as Hd
    by (apply bool_decide_eq_false; exact Hb).
  clear Hb. split.
  - destruct b; first [reflexivity | discriminate Hd].
  - destruct b; first [reflexivity | discriminate Hd].
Qed.

Lemma decode_ascii bs :
  Forall (λ b, (Byte.to_N b < 0x80)%N) bs → Utf8.decode bs = map Byte.to_N bs.
Proof.
  unfold Utf8.decode. induction 1 as [|b bs Hb Hbs IH]; simpl; [reflexivity |].
  unfold Utf8.decode_first. apply N.ltb_lt in Hb. rewrite Hb, IH. reflexivity.
Qed.

Lemma quote_from_bytes_plain bs :
  Urllib.percent ∉ Urllib.quote_from_bytes bs →
  Urllib.quote_from_bytes bs = Utf8.decode bs.
Proof.
  intros Hp.
  assert (Urllib.quote_from_bytes bs = map Byte.to_N bs
          ∧ Forall (λ b, (Byte.to_N b < 0x80)%N) bs) as [-> Hascii].
  { unfold Urllib.quote_from_bytes in *.
    induction bs as [|b bs IH]; simpl in *; [split; [reflexivity | constructor] |].
    rewrite elem_of_app in Hp.
    destruct (quote_octet_plain b) as [-> Hb]; [tauto |].
    destruct IH as [-> Hbs]; [tauto |].
    split; [reflexivity | constructor; assumption]. }
  symmetry. apply decode_ascii. exact Hascii.
Qed.

(** [unquote] undoes [quote]. *)
Lemma unquote_quote s q : Urllib.quote s = Ok q → Urllib.unquote q = s.
Proof.
  unfold Urllib.quote, Urllib.unquote. intros Hq. inv_ok Hq.
  injection Hq as <-. rename a into bs.
  case_bool_decide as Hp.
  - rewrite unquote_parts_ascii by apply quote_from_bytes_ascii.
    unfold Urllib.unquote_run.
    rewrite app_nil_r, rev_involutive, unquote_quote_bytes.
    apply decode_encode. assumption.
  - rewrite quote_from_bytes_plain by exact Hp.
    apply decode_encode. assumption.
Qed.

(** [quote] succeeds exactly on the strings [encode] accepts. *)
Lemma quote_ok_iff s :
  (∃ q, Urllib.quote s = Ok q) ↔ Forall (λ c, is_scalar c = true) s.
Proof.
  rewrite <- encode_ok_iff. unfold Urllib.quote. split.
  - intros [q Hq]. inv_ok Hq. eauto.
  - intros [bs ->]. simpl. eauto.
Qed.

(* ================================================================== *)
(** * Futures: filtering and the next expiry (C6, C7)                  *)
(* ================================================================== *)

(** A comprehension whose condition never raises is a filter. *)
Lemma comprehension_filter cond (p : value → bool) items :
  Forall (λ x, cond x = Ok (p x)) items →
  comprehension cond items = Ok (List.filter p items).
Proof.
  induction 1 as [|x items Hx _ IH]; simpl; [reflexivity |].
  rewrite Hx, IH. simpl. destruct (p x); reflexivity.
Qed.

Lemma getitem_field k v :
  is_ok (getitem v (lit k)) = true → getitem v (lit k) = Ok (field k v).
Proof. unfold field. destruct (getitem v (lit k)); [reflexivity | discriminate]. Qed.

Lemma has_fields_cons k ks v :
  has_fields (k :: ks) v = true ↔
  getitem v (lit k) = Ok (field k v) ∧ has_fields ks v = true.
Proof.
  unfold has_fields. simpl. rewrite andb_true_iff. split.
  - intros [Hk Hks]. split; [apply getitem_field; exact Hk | exact Hks].
  - intros [-> Hks]. split; [reflexivity | exact Hks].
Qed.

(** On Booleans and on strings [==] is equality. *)
Lemma py_eq_bool a b : py_eq (VBool a) (VBool b) = bool_decide (a = b).
Proof. destruct a, b; reflexivity. Qed.

Lemma py_eq_str s t : py_eq (VStr s) (VStr t) = bool_decide (s = t).
Proof. reflexivity. Qed.

Lemma py_lt_int a b : py_lt (VInt a) (VInt b) = Ok (a <? b).
Proof. simpl. unfold Z.ltb. destruct (a ?= b); reflexivity. Qed.

(** "Not below", on integer timestamps, is [<=]. *)
Lemma py_lt_int_false a b : py_lt (VInt a) (VInt b) = Ok false ↔ b <= a.
Proof.
  rewrite py_lt_int. split.
  - intros [= Hab%Z.ltb_ge]. exact Hab.
  - intros Hab%Z.ltb_ge. rewrite Hab. reflexivity.
Qed.

(** On a record of the exchange, with a string type and Boolean flags, the
    test reads as the specification writes it. *)
Lemma is_open_future_record f t enabled expired :
  getitem f (lit "type") = Ok (VStr t) →
  getitem f (lit "enabled") = Ok (VBool enabled) →
  getitem f (lit "expired") = Ok (VBool expired) →
  is_open_future f
  = bool_decide (t = lit "future") && enabled && negb expired.
Proof.
  intros Ht He Hx. unfold is_open_future, field. rewrite Ht, He, Hx.
  rewrite py_eq_str, !py_eq_bool.
  destruct enabled, expired; reflexivity.
Qed.

Lemma sublist_list_filter {A} (p : A → bool) l : sublist (List.filter p l) l.
Proof.
  induction l as [|x l IH]; simpl; [constructor |].
  destruct (p x); [apply sublist_skip | apply sublist_cons]; exact IH.
Qed.

Section futures.
Context `{Transport}.

(** "list all futures" is the filter [is_open_future]. *)
Lemma get_all_futures_open self ts raw :
  _get self ts (lit "futures") VNone = Ok (VList raw) →
  Forall (λ f, has_fields ["type"; "enabled"; "expired"]%string f = true) raw →
  get_all_futures self ts = Ok (List.filter is_open_future raw).
Proof.
  intros Hget Hraw. unfold get_all_futures. rewrite Hget. simpl.
  apply comprehension_filter.
  eapply Forall_impl; [exact Hraw |]. intros f Hf.
  apply has_fields_cons in Hf as [Ht Hf].
  apply has_fields_cons in Hf as [He Hf].
  apply has_fields_cons in Hf as [Hx _].
  unfold and_then, is_open_future. rewrite Ht. simpl.
  destruct (py_eq (field "type" f) (VStr (lit "future"))); [| reflexivity].
  rewrite He. simpl.
  destruct (py_eq (field "enabled" f) (VBool true)); [| reflexivity].
  rewrite Hx. reflexivity.
Qed.

(** C6: from the list of futures the exchange returns, "list all futures"
    returns exactly the entries whose type is "future", whose enabled field
    is true and whose expired field is false, in their order and unchanged. *)
Theorem get_all_futures_keeps_open self ts raw :
  _get self ts (lit "futures") VNone = Ok (VList raw) →
  Forall (λ f, has_fields ["type"; "enabled"; "expired"]%string f = true) raw →
  ∃ kept, get_all_futures self ts = Ok kept
          ∧ kept = List.filter is_open_future raw
          ∧ sublist kept raw
          ∧ ∀ f, f ∈ kept ↔ f ∈ raw ∧ is_open_future f = true.
Proof.
  intros Hget Hraw. exists (List.filter is_open_future raw).
  split; [exact (get_all_futures_open self ts raw Hget Hraw) |].
  split; [reflexivity |]. split; [apply sublist_list_filter |].
  intros f. rewrite !list_elem_of_In. apply filter_In.
Qed.


Lemma filter_filter_and {A} (p q : A → bool) l :
  List.filter q (List.filter p l) = List.filter (λ x, p x && q x) l.
Proof.
  induction l as [|x l IH]; simpl; [reflexivity |].
  destruct (p x); simpl; [destruct (q x) |]; rewrite ?IH; reflexivity.
Qed.

Lemma get_all_underlying_futures_filter self ts underlying raw :
  _get self ts (lit "futures") VNone = Ok (VList raw) →
  Forall (λ f, has_fields ["type"; "enabled"; "expired"; "underlying"]%string f
               = true) raw →
  get_all_underlying_futures self ts underlying
  = Ok (List.filter (is_open_future_of underlying) raw).
Proof.
  intros Hget Hraw. unfold get_all_underlying_futures.
  erewrite get_all_futures_open; [| exact Hget |].
  2:{ eapply Forall_impl; [exact Hraw |]. intros f Hf.
      apply has_fields_cons in Hf as [Ht Hf].
      apply has_fields_cons in Hf as [He Hf].
      apply has_fields_cons in Hf as [Hx _].
      unfold has_fields. simpl. rewrite Ht, He, Hx. reflexivity. }
  simpl. unfold is_open_future_of. rewrite <- filter_filter_and.
  apply comprehension_filter.
  apply Forall_forall. intros f Hf.
  apply list_elem_of_In, filter_In in Hf as [Hf%list_elem_of_In _].
  rewrite Forall_forall in Hraw. specialize (Hraw f Hf).
  do 3 apply has_fields_cons in Hraw as [_ Hraw].
  apply has_fields_cons in Hraw as [-> _]. reflexivity.
Qed.

End futures.

(** ** [min] over keys of one ordered kind *)

Lemma str_ltb_irrefl s : str_ltb s s = false.
Proof.
  induction s as [|c s IH]; simpl; [reflexivity |].
  rewrite N.ltb_irrefl, N.eqb_refl, IH. reflexivity.
Qed.

Lemma str_ltb_trans a b c :
  str_ltb a b = true → str_ltb b c = true → str_ltb a c = true.
Proof.
  revert b c. induction a as [|x a IH]; intros [|y b] [|z c]; simpl;
    try discriminate; try reflexivity.
  rewrite !orb_true_iff, !andb_true_iff, !N.ltb_lt, !N.eqb_eq.
  intros [Hxy | [-> Hab]] [Hyz | [-> Hbc]].
  - left. lia.
  - left. exact Hxy.
  - left. exact Hyz.
  - right. split; [reflexivity | eapply IH; eassumption].
Qed.

Lemma str_ltb_trichotomy a b :
  str_ltb a b = true ∨ a = b ∨ str_ltb b a = true.
Proof.
  revert b. induction a as [|x a IH]; intros [|y b]; simpl; auto.
  rewrite !orb_true_iff, !andb_true_iff, !N.ltb_lt, !N.eqb_eq.
  destruct (N.lt_trichotomy x y) as [Hlt | [-> | Hgt]]; [auto | | auto].
  destruct (IH b) as [Hab | [-> | Hba]]; auto.
Qed.

Section min_ordered.
Variable kind : value → Prop.
Hypothesis lt_total : ∀ a b, kind a → kind b → ∃ r, py_lt a b = Ok r.
Hypothesis lt_irrefl : ∀ a, kind a → py_lt a a = Ok false.
Hypothesis lt_trans : ∀ a b c, kind a → kind b → kind c →
  py_lt a b = Ok true → py_lt b c = Ok true → py_lt a c = Ok true.
Hypothesis lt_trichotomy : ∀ a b, kind a → kind b →
  py_lt a b = Ok true ∨ a = b ∨ py_lt b a = Ok true.
Variable key : value → result value.

Lemma not_lt_trans a b c :
  kind a → kind b → kind c →
  py_lt b a = Ok false → py_lt c b = Ok false → py_lt c a = Ok false.
Proof using All.
  intros Ha Hb Hc Hba Hcb.
  destruct (lt_total c a Hc Ha) as [[] Hca]; [| exact Hca].
  destruct (lt_trichotomy c b Hc Hb) as [Hlt | [-> | Hgt]]; [congruence.. |].
  pose proof (lt_trans b c a Hb Hc Ha Hgt Hca). congruence.
Qed.

(** The loop ends on an item whose key is not above the running minimum
    nor above any key it has seen. *)
Lemma min_loop_least items minitem m :
  Forall (λ g, ∃ k, key g = Ok k ∧ kind k) items →
  key minitem = Ok m → kind m →
  ∃ f e, min_loop key items minitem m = Ok f
         ∧ key f = Ok e ∧ kind e ∧ (f = minitem ∨ f ∈ items)
         ∧ py_lt m e = Ok false
         ∧ Forall (λ g, ∀ k, key g = Ok k → py_lt k e = Ok false) items.
Proof using All.
  intros Hitems. revert minitem m.
  induction Hitems as [|g items (z & Hg & Hz) _ IH]; intros minitem m Hm Hkm.
  - exists minitem, m.
    repeat split; [exact Hm | exact Hkm | left; reflexivity | auto
                  | constructor].
  - cbn [min_loop]. rewrite Hg.
    change (Ok z ≫= ?k) with (k z). cbv beta.
    destruct (lt_total z m Hz Hkm) as [[] Hlt]; rewrite Hlt;
      change (Ok ?b ≫= ?k) with (k b); cbv beta iota.
    + destruct (IH g z Hg Hz) as (f & e & Hloop & Hf & Hke & Hin & Hle & Hall).
      exists f, e.
      repeat split; [exact Hloop | exact Hf | exact Hke | | |].
      * right. destruct Hin as [-> | Hin]; [left | right; exact Hin].
      * destruct (lt_total m e Hkm Hke) as [[] Hme]; [| exact Hme].
        pose proof (lt_trans z m e Hz Hkm Hke Hlt Hme). congruence.
      * constructor; [| exact Hall]. intros k Hk.
        rewrite Hg in Hk. injection Hk as <-. exact Hle.
    + destruct (IH minitem m Hm Hkm)
        as (f & e & Hloop & Hf & Hke & Hin & Hle & Hall).
      exists f, e.
      repeat split; [exact Hloop | exact Hf | exact Hke | | exact Hle |].
      * destruct Hin as [-> | Hin];
          [left; reflexivity | right; right; exact Hin].
      * constructor; [| exact Hall]. intros k Hk.
        rewrite Hg in Hk. injection Hk as <-.
        exact (not_lt_trans e m z Hke Hkm Hz Hle Hlt).
Qed.

(** [min] over a non-empty list returns an item no other item is below. *)
Lemma py_min_least items :
  items ≠ [] →
  Forall (λ g, ∃ k, key g = Ok k ∧ kind k) items →
  ∃ f e, py_min items key = Ok f ∧ f ∈ items ∧ key f = Ok e
         ∧ Forall (λ g, ∀ k, key g = Ok k → py_lt k e = Ok false) items.
Proof using All.
  intros Hne Hitems.
  destruct Hitems as [|g items (z & Hg & Hz) Hitems]; [done |].
  cbn [py_min]. rewrite Hg. change (Ok z ≫= ?k) with (k z). cbv beta.
  destruct (min_loop_least items g z Hitems Hg Hz)
    as (f & e & Hloop & Hf & Hke & Hin & Hle & Hall).
  exists f, e. repeat split; [exact Hloop | | exact Hf |].
  - destruct Hin as [-> | Hin]; [left | right; exact Hin].
  - constructor; [| exact Hall]. intros k Hk.
    rewrite Hg in Hk. injection Hk as <-. exact Hle.
Qed.

End min_ordered.

Lemma py_lt_str a b : py_lt (VStr a) (VStr b) = Ok (str_ltb a b).
Proof. reflexivity. Qed.

Lemma py_min_int key items :
  items ≠ [] →
  Forall (λ g, ∃ k, key g = Ok k ∧ is_int k) items →
  ∃ f e, py_min items key = Ok f ∧ f ∈ items ∧ key f = Ok e
         ∧ Forall (λ g, ∀ k, key g = Ok k → py_lt k e = Ok false) items.
Proof.
  apply (py_min_least is_int).
  - intros _ _ [a ->] [b ->]. rewrite py_lt_int. eauto.
  - intros _ [a ->]. rewrite py_lt_int, Z.ltb_irrefl. reflexivity.
  - intros _ _ _ [a ->] [b ->] [c ->]. rewrite !py_lt_int.
    intros [= Hab%Z.ltb_lt] [= Hbc%Z.ltb_lt]. f_equal. apply Z.ltb_lt. lia.
  - intros _ _ [a ->] [b ->]. rewrite !py_lt_int.
    destruct (Z.lt_trichotomy a b) as [Hlt | [-> | Hgt]].
    + left. f_equal. apply Z.ltb_lt. exact Hlt.
    + right. left. reflexivity.
    + right. right. f_equal. apply Z.ltb_lt. exact Hgt.
Qed.

Lemma py_min_str key items :
  items ≠ [] →
  Forall (λ g, ∃ k, key g = Ok k ∧ is_str k) items →
  ∃ f e, py_min items key = Ok f ∧ f ∈ items ∧ key f = Ok e
         ∧ Forall (λ g, ∀ k, key g = Ok k → py_lt k e = Ok false) items.
Proof.
  apply (py_min_least is_str).
  - intros _ _ [a ->] [b ->]. rewrite py_lt_str. eauto.
  - intros _ [a ->]. rewrite py_lt_str, str_ltb_irrefl. reflexivity.
  - intros _ _ _ [a ->] [b ->] [c ->]. rewrite !py_lt_str.
    intros [= Hab] [= Hbc]. f_equal. eapply str_ltb_trans; eassumption.
  - intros _ _ [a ->] [b ->]. rewrite !py_lt_str.
    destruct (str_ltb_trichotomy a b) as [Hlt | [-> | Hgt]].
    + left. f_equal. exact Hlt.
    + right. left. reflexivity.
    + right. right. f_equal. exact Hgt.
Qed.

Section next_future.
Context `{Transport}.

(** C7: "next future for underlying" returns, among the enabled, non-expired
    futures of the asset, one whose expiry no other precedes; when there is
    no such future the call fails with the ValueError of [min] on an empty
    sequence. *)
Theorem next_future_is_earliest self ts underlying raw :
  _get self ts (lit "futures") VNone = Ok (VList raw) →
  Forall (λ f, has_fields ["type"; "enabled"; "expired"; "underlying"]%string f
               = true) raw →
  let candidates := List.filter (is_open_future_of underlying) raw in
  Forall (λ f, has_fields ["expiry"]%string f = true) candidates →
  timestamps (map (field "expiry") candidates) →
  (candidates = [] →
   get_next_underlying_future self ts underlying
   = Err (ValueError (lit "min() arg is an empty sequence")))
  ∧ (candidates ≠ [] →
     ∃ f, get_next_underlying_future self ts underlying = Ok f
          ∧ f ∈ candidates
          ∧ ∀ g, g ∈ candidates →
                 py_lt (field "expiry" g) (field "expiry" f) = Ok false).
Proof.
  intros Hget Hraw candidates Hexp Hkind.
  unfold get_next_underlying_future.
  rewrite (get_all_underlying_futures_filter self ts underlying raw Hget Hraw).
  fold candidates. change (Ok candidates ≫= ?k) with (k candidates). cbv beta.
  split; [intros ->; reflexivity |]. intros Hne.
  assert (∀ kind, Forall kind (map (field "expiry") candidates) →
          Forall (λ g, ∃ k, getitem g (lit "expiry") = Ok k ∧ kind k)
            candidates) as Hkeys.
  { intros kind Hk. rewrite Forall_map in Hk.
    apply Forall_forall. intros g Hg.
    rewrite Forall_forall in Hexp, Hk.
    specialize (Hexp g Hg). apply has_fields_cons in Hexp as [Hexp _].
    exists (field "expiry" g). split; [exact Hexp | exact (Hk g Hg)]. }
  assert (∃ f e, py_min candidates (λ future, getitem future (lit "expiry"))
                 = Ok f ∧ f ∈ candidates
                 ∧ getitem f (lit "expiry") = Ok e
                 ∧ Forall (λ g, ∀ k, getitem g (lit "expiry") = Ok k →
                                     py_lt k e = Ok false) candidates)
    as (f & e & Hmin & Hin & Hf & Hall).
  { destruct Hkind as [Hk | Hk].
    - apply py_min_int; [exact Hne | exact (Hkeys _ Hk)].
    - apply py_min_str; [exact Hne | exact (Hkeys _ Hk)]. }
  exists f. repeat split; [exact Hmin | exact Hin |].
  intros g Hg. rewrite Forall_forall in Hall, Hexp.
  assert (field "expiry" f = e) as -> by (unfold field; rewrite Hf; reflexivity).
  apply (Hall g Hg).
  specialize (Hexp g Hg). apply has_fields_cons in Hexp as [Hexp _]. exact Hexp.
Qed.

End next_future.

(* ================================================================== *)
(** * Signing (C1, C2, C9)                                             *)
(* ================================================================== *)

Lemma encode_app a b :
  Utf8.encode (a ++ b)
  = (x ← Utf8.encode a; y ← Utf8.encode b; Ok (x ++ y)).
Proof.
  induction a as [|c a IH]; simpl.
  - destruct (Utf8.encode b); reflexivity.
  - destruct (Utf8.encode_code_point c) as [bc|]; simpl; [| reflexivity].
    rewrite IH. destruct (Utf8.encode a) as [ba|]; simpl; [| reflexivity].
    destruct (Utf8.encode b) as [bb|]; simpl; [| reflexivity].
    rewrite app_assoc. reflexivity.
Qed.

Lemma is_upper_upper s : is_upper (upper s) = true.
Proof.
  unfold is_upper, upper. induction s as [|c s IH]; simpl; [reflexivity |].
  rewrite IH, andb_true_r.
  destruct ((97 <=? c)%N && (c <=? 122)%N) eqn:Hc.
  - apply andb_true_iff in Hc as [H1%N.leb_le H2%N.leb_le].
    apply negb_true_iff, andb_false_iff. left. apply N.leb_gt. lia.
  - rewrite Hc. reflexivity.
Qed.

Lemma hex_octet_lower b : forallb is_lower_hex (Sha256.hex_octet b) = true.
Proof. destruct b; reflexivity. Qed.

Lemma hexdigest_lower bs : forallb is_lower_hex (Sha256.hexdigest bs) = true.
Proof.
  induction bs as [|b bs IH]; [reflexivity |].
  change (Sha256.hexdigest (b :: bs))
    with (Sha256.hex_octet b ++ Sha256.hexdigest bs).
  rewrite forallb_app, hex_octet_lower, IH. reflexivity.
Qed.

Lemma hexdigest_length bs :
  length (Sha256.hexdigest bs) = (2 * length bs)%nat.
Proof.
  induction bs as [|b bs IH]; [reflexivity |].
  change (Sha256.hexdigest (b :: bs))
    with (Sha256.hex_octet b ++ Sha256.hexdigest bs).
  rewrite length_app, IH. simpl. lia.
Qed.

Lemma sha256_length msg : length (Sha256.sha256 msg) = 32%nat.
Proof. reflexivity. Qed.

Lemma hmac_sha256_length key msg :
  length (Sha256.hmac_sha256 key msg) = 32%nat.
Proof. apply sha256_length. Qed.

(** The signature of the specification is 64 lower-case hexadecimal
    digits. *)
Lemma spec_signature_hex secret ts method path body sig :
  spec_signature secret ts method path body = Ok sig →
  length sig = 64%nat ∧ forallb is_lower_hex sig = true.
Proof.
  unfold spec_signature. intros Hs. inv_ok Hs. injection Hs as <-.
  rewrite hexdigest_length, hmac_sha256_length, hexdigest_lower. auto.
Qed.

Section signing.
Context `{Transport}.

(** What a successful signing did, step by step. *)
Lemma sign_request_inv self ts request signed :
  _sign_request self ts request = Ok signed →
  ∃ prepared text key,
    prepare request = Ok prepared
    ∧ Utf8.encode (str_of_int ts ++ p_method prepared ++ path_url prepared)
      = Ok text
    ∧ encode (_api_secret self) = Ok key
    ∧ method signed = method request ∧ url signed = url request
    ∧ params signed = params request ∧ json signed = json request
    ∧ headers signed !! lit "FTX-KEY" = Some (_api_key self)
    ∧ headers signed !! lit "FTX-SIGN"
      = Some (VStr (Sha256.hexdigest
                      (Sha256.hmac_sha256 key
                         (text ++ default [] (p_body prepared)))))
    ∧ headers signed !! lit "FTX-TS" = Some (VStr (str_of_int ts))
    ∧ (if truthy (_subaccount_name self)
       then ∃ name, quote (_subaccount_name self) = Ok name
                    ∧ headers signed !! lit "FTX-SUBACCOUNT" = Some (VStr name)
       else headers signed !! lit "FTX-SUBACCOUNT"
            = headers request !! lit "FTX-SUBACCOUNT").
Proof.
  unfold _sign_request. intros Hs.
  apply bind_Ok in Hs as (prepared & Hp & Hs).
  apply bind_Ok in Hs as (text & Ht & Hs).
  apply bind_Ok in Hs as (key & Hk & Hs).
  exists prepared, text, key.
  assert ((match p_body prepared with
           | Some body => if bool_decide (body = []) then text else text ++ body
           | None => text
           end) = text ++ default [] (p_body prepared)) as Hpayload.
  { destruct (p_body prepared) as [body|]; simpl.
    - case_bool_decide as Hb; [subst body; rewrite app_nil_r |]; reflexivity.
    - rewrite app_nil_r. reflexivity. }
  rewrite Hpayload in Hs. clear Hpayload.
  destruct (truthy (_subaccount_name self)).
  - apply bind_Ok in Hs as (name & Hn & Hs). injection Hs as <-. simpl.
    repeat split; try assumption; try reflexivity.
    + rewrite !lookup_insert_ne by (vm_compute; discriminate).
      apply lookup_insert_eq.
    + rewrite !lookup_insert_ne by (vm_compute; discriminate).
      apply lookup_insert_eq.
    + rewrite !lookup_insert_ne by (vm_compute; discriminate).
      apply lookup_insert_eq.
    + exists name. split; [exact Hn | apply lookup_insert_eq].
  - injection Hs as <-. simpl.
    repeat split; try assumption; try reflexivity.
    + rewrite !lookup_insert_ne by (vm_compute; discriminate).
      apply lookup_insert_eq.
    + rewrite !lookup_insert_ne by (vm_compute; discriminate).
      apply lookup_insert_eq.
    + apply lookup_insert_eq.
    + rewrite !lookup_insert_ne by (vm_compute; discriminate). reflexivity.
Qed.


Lemma prepare_inv request prepared :
  prepare request = Ok prepared →
  p_method prepared = upper (method request)
  ∧ prepare_url (url request) (params request) = Ok (p_url prepared)
  ∧ prepare_body (json request) = Ok (p_body prepared).
Proof.
  unfold prepare. intros Hp.
  apply bind_Ok in Hp as (u & Hu & Hp).
  apply bind_Ok in Hp as (body & Hb & Hp).
  apply bind_Ok in Hp as (h & Hh & Hp).
  injection Hp as <-. simpl. auto.
Qed.

Lemma encode_str v key :
  encode v = Ok key → ∃ secret, v = VStr secret ∧ Utf8.encode secret = Ok key.
Proof. destruct v; try discriminate. simpl. eauto. Qed.

(** The payload the client signs is the one of the specification. *)
Lemma signed_text secret ts method path body key text :
  Utf8.encode secret = Ok key →
  Utf8.encode (str_of_int ts ++ method ++ path) = Ok text →
  spec_signature secret ts method path body
  = Ok (Sha256.hexdigest (Sha256.hmac_sha256 key (text ++ default [] body))).
Proof.
  intros Hk Ht. unfold spec_signature. rewrite Hk. simpl.
  rewrite !encode_app in Ht.
  apply bind_Ok in Ht as (t & -> & Ht).
  apply bind_Ok in Ht as (mp & Hmp & Ht).
  apply bind_Ok in Hmp as (m & -> & Hmp).
  apply bind_Ok in Hmp as (p & -> & Hmp).
  injection Hmp as <-. injection Ht as <-. simpl.
  rewrite <- !app_assoc. reflexivity.
Qed.

(** A signed request carries the signature of the specification. *)
Lemma sign_request_spec self ts request signed :
  _sign_request self ts request = Ok signed →
  ∃ secret prepared sig,
    _api_secret self = VStr secret
    ∧ prepare request = Ok prepared
    ∧ p_method prepared = upper (method request)
    ∧ is_upper (p_method prepared) = true
    ∧ spec_signature secret ts (p_method prepared) (path_url prepared)
        (p_body prepared) = Ok sig
    ∧ headers signed !! lit "FTX-SIGN" = Some (VStr sig).
Proof.
  intros Hs.
  apply sign_request_inv in Hs
    as (prepared & text & key & Hp & Ht & Hk & _ & _ & _ & _ & _ & Hsig & _).
  apply encode_str in Hk as (secret & Hsecret & Hk).
  pose proof (prepare_inv request prepared Hp) as (Hm & _ & _).
  exists secret, prepared. eexists.
  repeat split; [exact Hsecret | exact Hp | exact Hm | | | exact Hsig].
  - rewrite Hm. apply is_upper_upper.
  - apply signed_text; assumption.
Qed.

(** C1: on every request the client signs, the FTX-SIGN header is the
    lower-case hexadecimal HMAC-SHA256 (64 digits), keyed by the API secret,
    of the timestamp in decimal, the upper-case method, the path and query
    of the prepared URL and the body octets when there is a body; FTX-TS is
    the same timestamp and FTX-KEY the API key. *)
Theorem sign_request_signature self ts request signed :
  _sign_request self ts request = Ok signed →
  ∃ secret prepared sig,
    _api_secret self = VStr secret
    ∧ prepare request = Ok prepared
    ∧ p_method prepared = upper (method request)
    ∧ is_upper (p_method prepared) = true
    ∧ spec_signature secret ts (p_method prepared) (path_url prepared)
        (p_body prepared) = Ok sig
    ∧ headers signed !! lit "FTX-SIGN" = Some (VStr sig)
    ∧ length sig = 64%nat
    ∧ forallb is_lower_hex sig = true
    ∧ headers signed !! lit "FTX-TS" = Some (VStr (str_of_int ts))
    ∧ headers signed !! lit "FTX-KEY" = Some (_api_key self).
Proof.
  intros Hs.
  pose proof (sign_request_spec self ts request signed Hs)
    as (secret & prepared & sig & Hsecret & Hp & Hm & Hup & Hspec & Hsig).
  apply sign_request_inv in Hs
    as (_ & _ & _ & _ & _ & _ & _ & _ & _ & _ & Hkey & _ & Hts & _).
  exists secret, prepared, sig.
  destruct (spec_signature_hex _ _ _ _ _ _ Hspec) as [Hlen Hhex].
  repeat split; assumption.
Qed.

(** Signing succeeds as soon as each of its steps does. *)
Lemma sign_request_succeeds self ts request prepared secret sig :
  prepare request = Ok prepared →
  _api_secret self = VStr secret →
  spec_signature secret ts (p_method prepared) (path_url prepared)
    (p_body prepared) = Ok sig →
  (truthy (_subaccount_name self) = true →
   ∃ name, quote (_subaccount_name self) = Ok name) →
  ∃ signed, _sign_request self ts request = Ok signed.
Proof.
  intros Hp Hsecret Hsig Hsub. unfold _sign_request, spec_signature in *.
  rewrite Hp, Hsecret. simpl.
  apply bind_Ok in Hsig as (key & Hk & Hsig).
  apply bind_Ok in Hsig as (t & Ht & Hsig).
  apply bind_Ok in Hsig as (m & Hm & Hsig).
  apply bind_Ok in Hsig as (p & Hpath & _).
  rewrite !encode_app, Ht, Hm, Hpath, Hk. simpl.
  destruct (truthy (_subaccount_name self)); [| eauto].
  destruct Hsub as [name ->]; [reflexivity |]. simpl. eauto.
Qed.

(** [_request] is: build, sign, prepare again, send, normalise. *)
Lemma request_outgoing self ts method path params json :
  _request self ts method path params json
  = (sent ← outgoing self ts method path params json;
     response ← send sent;
     _process_response response).
Proof.
  unfold _request, outgoing.
  destruct (_sign_request _ _ _) as [signed|]; reflexivity.
Qed.

(** C2: the method, the path and query and the body the signature was
    computed over are those of the request handed to the transport; the
    FTX-SIGN header is the signature of exactly what is sent. *)
Theorem signature_covers_sent_request self ts method path params json
    signed sent :
  let request := mkRequest method (_api_endpoint self ++ path) params json ∅ in
  _sign_request self ts request = Ok signed →
  prepare signed = Ok sent →
  (∃ prepared, prepare request = Ok prepared
               ∧ p_method prepared = p_method sent
               ∧ path_url prepared = path_url sent
               ∧ p_body prepared = p_body sent)
  ∧ (∃ secret sig,
       _api_secret self = VStr secret
       ∧ spec_signature secret ts (p_method sent) (path_url sent) (p_body sent)
         = Ok sig
       ∧ headers signed !! lit "FTX-SIGN" = Some (VStr sig))
  ∧ _request self ts method path params json
    = (response ← send sent; _process_response response).
Proof.
  intros request Hs Hsent.
  pose proof (sign_request_spec self ts request signed Hs)
    as (secret & prepared & sig & Hsecret & Hp & _ & _ & Hspec & Hsig).
  apply sign_request_inv in Hs as Hinv.
  destruct Hinv as (prepared' & _ & _ & Hp' & _ & _ & Hm & Hu & Hpa & Hj & _).
  assert (prepared' = prepared) as -> by congruence.
  pose proof (prepare_inv request prepared Hp) as (Hpm & Hpu & Hpb).
  pose proof (prepare_inv signed sent Hsent) as (Hsm & Hsu & Hsb).
  rewrite Hm, Hu, Hpa, Hj in *.
  assert (p_method prepared = p_method sent) as Hmethod by congruence.
  assert (p_url prepared = p_url sent) as Hurl by congruence.
  assert (p_body prepared = p_body sent) as Hbody by congruence.
  assert (path_url prepared = path_url sent) as Hpath
    by (unfold path_url; rewrite Hurl; reflexivity).
  split; [| split].
  - exists prepared. auto.
  - exists secret, sig. rewrite <- Hmethod, <- Hpath, <- Hbody. auto.
  - rewrite request_outgoing. unfold outgoing. fold request.
    rewrite Hs. simpl. rewrite Hsent. reflexivity.
Qed.

(** C9: for a configured non-empty subaccount name, the FTX-SUBACCOUNT
    header of a signed request is the percent-encoding of the name, and
    percent-decoding the header gives the name back; the name makes signing
    fail only if it holds a lone surrogate, which UTF-8 cannot encode. *)
Theorem subaccount_header_round_trip self ts request name :
  _subaccount_name self = VStr name → name ≠ [] →
  (∀ signed, _sign_request self ts request = Ok signed →
     ∃ q, Urllib.quote name = Ok q
          ∧ headers signed !! lit "FTX-SUBACCOUNT" = Some (VStr q)
          ∧ Urllib.unquote q = name)
  ∧ (Forall (λ c, is_scalar c = true) name →
     is_ok (_sign_request (main_account self) ts request) = true →
     is_ok (_sign_request self ts request) = true).
Proof.
  intros Hname Hne. split.
  - intros signed Hs.
    apply sign_request_inv in Hs
      as (_ & _ & _ & _ & _ & _ & _ & _ & _ & _ & _ & _ & _ & Hsub).
    rewrite Hname in Hsub.
    assert (truthy (VStr name) = true) as Ht by (apply truthy_str; exact Hne).
    rewrite Ht in Hsub. destruct Hsub as (q & Hq & Hh). simpl in Hq.
    exists q. repeat split; [exact Hq | exact Hh |].
    apply unquote_quote. exact Hq.
  - intros Hscalar Hmain.
    destruct (_sign_request (main_account self) ts request) as [base|] eqn:Hb;
      [| discriminate].
    pose proof (sign_request_spec _ _ _ _ Hb)
      as (secret & prepared & sig & Hsecret & Hp & _ & _ & Hspec & _).
    apply quote_ok_iff in Hscalar as [q Hq].
    destruct (sign_request_succeeds self ts request prepared secret sig)
      as [signed ->]; [exact Hp | exact Hsecret | exact Hspec | | reflexivity].
    intros _. rewrite Hname. simpl. eauto.
Qed.

(** A lone surrogate in the name: [quote] raises and nothing is signed. *)
Lemma subaccount_surrogate_raises self ts request prepared secret sig :
  prepare request = Ok prepared →
  _api_secret self = VStr secret →
  spec_signature secret ts (p_method prepared) (path_url prepared)
    (p_body prepared) = Ok sig →
  _subaccount_name self = VStr [0xD800%N] →
  _sign_request self ts request = Err UnicodeEncodeError.
Proof.
  intros Hp Hsecret Hsig Hname. unfold _sign_request, spec_signature in *.
  rewrite Hp, Hsecret, Hname. simpl.
  apply bind_Ok in Hsig as (key & Hk & Hsig).
  apply bind_Ok in Hsig as (t & Ht & Hsig).
  apply bind_Ok in Hsig as (m & Hm & Hsig).
  apply bind_Ok in Hsig as (p & Hpath & _).
  rewrite !encode_app, Ht, Hm, Hpath, Hk. reflexivity.
Qed.

(* ================================================================== *)
(** * Orders (C8, C10)                                                 *)
(* ================================================================== *)

Lemma outgoing_inv self ts method path params json sent :
  outgoing self ts method path params json = Ok sent →
  p_method sent = upper method
  ∧ prepare_url (_api_endpoint self ++ path) params = Ok (p_url sent)
  ∧ prepare_body json = Ok (p_body sent).
Proof.
  unfold outgoing. intros Ho. apply bind_Ok in Ho as (signed & Hs & Hsent).
  apply sign_request_inv in Hs
    as (_ & _ & _ & _ & _ & _ & Hm & Hu & Hpa & Hj & _).
  apply prepare_inv in Hsent as (Hsm & Hsu & Hsb).
  rewrite Hm, Hu, Hpa, Hj in *. auto.
Qed.

(** C8: [place_order] sends its arguments under the nine keys of the write
    payload, an argument left out as its default ([None], ['market'] or
    [False]): the request is a POST to [orders] whose body is that
    dictionary serialised, with no key dropped. *)
Theorem place_order_payload self ts market side size price type reduce_only
    ioc post_only client_id :
  let payload :=
    VDict [(lit "market", market);
           (lit "side", side);
           (lit "price", default VNone price);
           (lit "size", size);
           (lit "type", default (VStr (lit "market")) type);
           (lit "reduceOnly", default (VBool false) reduce_only);
           (lit "ioc", default (VBool false) ioc);
           (lit "postOnly", default (VBool false) post_only);
           (lit "clientId", default VNone client_id)] in
  place_order self ts market side size price type reduce_only ioc post_only
    client_id
  = (sent ← outgoing self ts (lit "POST") (lit "orders") VNone payload;
     response ← send sent;
     _process_response response)
  ∧ ∀ sent, outgoing self ts (lit "POST") (lit "orders") VNone payload = Ok sent →
      p_method sent = lit "POST"
      ∧ ∃ body, json_dumps payload = Ok body ∧ p_body sent = Some body.
Proof.
  intros payload. split.
  - unfold place_order, _post. rewrite request_outgoing. reflexivity.
  - intros sent Ho. apply outgoing_inv in Ho as (Hm & _ & Hb).
    split; [exact Hm |].
    unfold prepare_body, payload in Hb.
    apply bind_Ok in Hb as (body & Hbody & Hb). injection Hb as Hb.
    exists body. split; [exact Hbody | symmetry; exact Hb].
Qed.

(** C10: without an order type, [get_order_history] asks for
    [orderType='market']; market, side, start and end time left out are
    passed as [None] under their keys.  The request is a GET of
    [orders/history] with these five query parameters and no body. *)
Theorem get_order_history_params self ts market side start_time end_time :
  let params :=
    VDict [(lit "market", default VNone market);
           (lit "side", default VNone side);
           (lit "orderType", VStr (lit "market"));
           (lit "start_time", default VNone start_time);
           (lit "end_time", default VNone end_time)] in
  get_order_history self ts market side None start_time end_time
  = (sent ← outgoing self ts (lit "GET") (lit "orders/history") params VNone;
     response ← send sent;
     _process_response response)
  ∧ ∀ sent,
      outgoing self ts (lit "GET") (lit "orders/history") params VNone = Ok sent →
      p_method sent = lit "GET"
      ∧ prepare_url (_api_endpoint self ++ lit "orders/history") params
        = Ok (p_url sent)
      ∧ p_body sent = None.
Proof.
  intros params. split.
  - unfold get_order_history, _get. rewrite request_outgoing. reflexivity.
  - intros sent Ho. apply outgoing_inv in Ho as (Hm & Hu & Hb).
    injection Hb as Hb. auto.
Qed.

End signing.

(* ================================================================== *)
(** * The theorems at work on the canned exchange                      *)
(* ================================================================== *)

Lemma sign_request_signature_witness :
  ∃ secret prepared sig,
    _api_secret Canned.client = VStr secret
    ∧ prepare (H:=Canned.transport) Canned.markets_request = Ok prepared
    ∧ p_method prepared = upper (method Canned.markets_request)
    ∧ is_upper (p_method prepared) = true
    ∧ spec_signature secret Canned.clock (p_method prepared)
        (path_url (H:=Canned.transport) prepared) (p_body prepared) = Ok sig
    ∧ headers Canned.markets_signed !! lit "FTX-SIGN" = Some (VStr sig)
    ∧ length sig = 64%nat
    ∧ forallb is_lower_hex sig = true
    ∧ headers Canned.markets_signed !! lit "FTX-TS"
      = Some (VStr (str_of_int Canned.clock))
    ∧ headers Canned.markets_signed !! lit "FTX-KEY"
      = Some (_api_key Canned.client).
Proof.
  apply (sign_request_signature (H:=Canned.transport) Canned.client
           Canned.clock Canned.markets_request Canned.markets_signed).
  vm_compute. reflexivity.
Defined.

Lemma signature_covers_sent_request_witness :
  (∃ prepared,
     prepare (H:=Canned.transport) Canned.markets_request = Ok prepared
     ∧ p_method prepared = p_method Canned.markets_sent
     ∧ path_url (H:=Canned.transport) prepared
       = path_url (H:=Canned.transport) Canned.markets_sent
     ∧ p_body prepared = p_body Canned.markets_sent)
  ∧ (∃ secret sig,
       _api_secret Canned.client = VStr secret
       ∧ spec_signature secret Canned.clock (p_method Canned.markets_sent)
           (path_url (H:=Canned.transport) Canned.markets_sent)
           (p_body Canned.markets_sent) = Ok sig
       ∧ headers Canned.markets_signed !! lit "FTX-SIGN" = Some (VStr sig))
  ∧ _request (H:=Canned.transport) Canned.client Canned.clock (lit "GET")
      (lit "markets") VNone VNone
    = (response ← send (Transport:=Canned.transport) Canned.markets_sent;
       _process_response (H:=Canned.transport) response).
Proof.
  apply (signature_covers_sent_request (H:=Canned.transport) Canned.client
           Canned.clock (lit "GET") (lit "markets") VNone VNone
           Canned.markets_signed Canned.markets_sent);
    vm_compute; reflexivity.
Defined.

Lemma subaccount_header_round_trip_witness :
  (∃ q, Urllib.quote (lit "my sub") = Ok q
        ∧ headers Canned.markets_sub_signed !! lit "FTX-SUBACCOUNT"
          = Some (VStr q)
        ∧ Urllib.unquote q = lit "my sub")
  ∧ is_ok (_sign_request (H:=Canned.transport) Canned.sub_client Canned.clock
             Canned.markets_request) = true.
Proof.
  pose proof (subaccount_header_round_trip (H:=Canned.transport)
                Canned.sub_client Canned.clock Canned.markets_request
                (lit "my sub") eq_refl ltac:(discriminate))
    as [Hheader Hsigned].
  split.
  - apply (Hheader Canned.markets_sub_signed). vm_compute. reflexivity.
  - apply Hsigned; [repeat constructor | vm_compute; reflexivity].
Defined.

Lemma get_all_futures_keeps_open_witness :
  ∃ kept,
    get_all_futures (H:=Canned.transport) Canned.client Canned.clock = Ok kept
    ∧ kept = List.filter is_open_future Canned.futures
    ∧ sublist kept Canned.futures
    ∧ ∀ f, f ∈ kept ↔ f ∈ Canned.futures ∧ is_open_future f = true.
Proof.
  apply (get_all_futures_keeps_open (H:=Canned.transport) Canned.client
           Canned.clock Canned.futures).
  - vm_compute. reflexivity.
  - repeat constructor.
Defined.

Lemma next_future_is_earliest_witness :
  let candidates :=
    List.filter (is_open_future_of (VStr (lit "BTC"))) Canned.futures in
  (candidates = [] →
   get_next_underlying_future (H:=Canned.transport) Canned.client Canned.clock
     (VStr (lit "BTC"))
   = Err (ValueError (lit "min() arg is an empty sequence")))
  ∧ (candidates ≠ [] →
     ∃ f, get_next_underlying_future (H:=Canned.transport) Canned.client
            Canned.clock (VStr (lit "BTC")) = Ok f
          ∧ f ∈ candidates
          ∧ ∀ g, g ∈ candidates →
                 py_lt (field "expiry" g) (field "expiry" f) = Ok false).
Proof.
  apply (next_future_is_earliest (H:=Canned.transport) Canned.client
           Canned.clock (VStr (lit "BTC")) Canned.futures).
  - vm_compute. reflexivity.
  - repeat constructor.
  - repeat constructor.
  - left. repeat constructor; eexists; reflexivity.
Defined.

Lemma place_order_payload_witness :
  place_order (H:=Canned.transport) Canned.client Canned.clock
    (VStr (lit "BTC-PERP")) (VStr (lit "buy")) (VFloat 1.5)
    None None None None None None
  = (sent ← outgoing (H:=Canned.transport) Canned.client Canned.clock
              (lit "POST") (lit "orders") VNone Canned.order;
     response ← send (Transport:=Canned.transport) sent;
     _process_response (H:=Canned.transport) response)
  ∧ (p_method Canned.order_sent = lit "POST"
     ∧ ∃ body, json_dumps (Transport:=Canned.transport) Canned.order = Ok body
               ∧ p_body Canned.order_sent = Some body).
Proof.
  pose proof (place_order_payload (H:=Canned.transport) Canned.client
                Canned.clock (VStr (lit "BTC-PERP")) (VStr (lit "buy"))
                (VFloat 1.5) None None None None None None) as [Hcall Hsent].
  split; [exact Hcall |].
  apply Hsent. vm_compute. reflexivity.
Defined.

Lemma get_order_history_params_witness :
  p_method Canned.history_sent = lit "GET"
  ∧ prepare_url (Transport:=Canned.transport)
      (Canned.endpoint ++ lit "orders/history")
      (VDict [(lit "market", VNone); (lit "side", VNone);
              (lit "orderType", VStr (lit "market"));
              (lit "start_time", VNone); (lit "end_time", VNone)])
    = Ok (p_url Canned.history_sent)
  ∧ p_body Canned.history_sent = None.
Proof.
  apply (proj2 (get_order_history_params (H:=Canned.transport) Canned.client
                  Canned.clock None None None None) Canned.history_sent).
  vm_compute. reflexivity.
Defined.

(* ================================================================== *)
(** * Further properties of the normaliser                             *)
(* ================================================================== *)

Section normalizer_edges.
Context `{Transport}.

(** X1: a JSON body that is not an envelope.  A value that is not an object
    raises TypeError; an object without [success] raises KeyError; a failed
    envelope without [error], or a successful one without [result], raises
    KeyError on that key. *)
Theorem process_response_malformed response data :
  json_loads (content response) = Some data →
  ((∀ d, data ≠ VDict d) → _process_response response = Err TypeError)
  ∧ (∀ d, data = VDict d →
       (assoc (lit "success") d = None →
        _process_response response = Err (KeyError (lit "success")))
       ∧ (∀ s, assoc (lit "success") d = Some s → truthy s = false →
               assoc (lit "error") d = None →
               _process_response response = Err (KeyError (lit "error")))
       ∧ (∀ s, assoc (lit "success") d = Some s → truthy s = true →
               assoc (lit "result") d = None →
               _process_response response = Err (KeyError (lit "result")))).
Proof.
  intros Hjson. unfold _process_response. rewrite Hjson. split.
  - intros Hnd. destruct data; try reflexivity. destruct (Hnd d). reflexivity.
  - intros d ->. simpl. split; [| split].
    + intros ->. reflexivity.
    + intros s -> Hs He. simpl. rewrite Hs, He. reflexivity.
    + intros s -> Hs Hr. simpl. rewrite Hs, Hr. reflexivity.
Qed.

(** X2: the status of a response whose body is JSON is never looked at:
    two responses with the same body are normalised alike. *)
Theorem process_response_ignores_status response response' data :
  json_loads (content response) = Some data →
  content response' = content response →
  _process_response response' = _process_response response.
Proof.
  intros Hjson Hc. unfold _process_response. rewrite Hc, Hjson. reflexivity.
Qed.

End normalizer_edges.

Lemma process_response_malformed_witness :
  _process_response (H:=Stub.answering 200 (Some (VList [VInt 1])))
    (mkResponse 200 []) = Err TypeError
  ∧ _process_response (H:=Stub.answering 200 (Some (VDict [])))
      (mkResponse 200 []) = Err (KeyError (lit "success"))
  ∧ _process_response
      (H:=Stub.answering 200 (Some (VDict [(lit "success", VBool false)])))
      (mkResponse 200 []) = Err (KeyError (lit "error"))
  ∧ _process_response
      (H:=Stub.answering 200 (Some (VDict [(lit "success", VInt 1)])))
      (mkResponse 200 []) = Err (KeyError (lit "result")).
Proof.
  split; [| split; [| split]].
  - apply (proj1 (process_response_malformed
                    (H:=Stub.answering 200 (Some (VList [VInt 1])))
                    (mkResponse 200 []) (VList [VInt 1]) eq_refl)).
    intros d. discriminate.
  - apply (proj1 (proj2 (process_response_malformed
                    (H:=Stub.answering 200 (Some (VDict [])))
                    (mkResponse 200 []) (VDict []) eq_refl) [] eq_refl)).
    reflexivity.
  - apply (proj1 (proj2 (proj2 (process_response_malformed
             (H:=Stub.answering 200 (Some (VDict [(lit "success", VBool false)])))
             (mkResponse 200 []) _ eq_refl) _ eq_refl))
             (VBool false)); reflexivity.
  - apply (proj2 (proj2 (proj2 (process_response_malformed
             (H:=Stub.answering 200 (Some (VDict [(lit "success", VInt 1)])))
             (mkResponse 200 []) _ eq_refl) _ eq_refl))
             (VInt 1)); reflexivity.
Defined.

Lemma process_response_ignores_status_witness :
  _process_response (H:=Canned.transport) (mkResponse 500 Canned.result_body)
  = _process_response (H:=Canned.transport) (mkResponse 200 Canned.result_body).
Proof.
  apply (process_response_ignores_status (H:=Canned.transport)
           (mkResponse 200 Canned.result_body)
           (mkResponse 500 Canned.result_body)
           (VDict [(lit "success", VBool true);
                   (lit "result", VList [VInt 1; VInt 2; VInt 3])]));
    reflexivity.
Defined.

(* ================================================================== *)
(** * Further properties of the constructor                            *)
(* ================================================================== *)

(** X3: which message the constructor raises.  The key is examined before
    the secret and emptiness before the type, so a falsy value that is not
    a string ([None], [0], [[]]) is reported as empty. *)
Theorem init_error_messages api_endpoint key secret subaccount_name :
  (truthy key = false →
   __init__ api_endpoint key secret subaccount_name
   = Err (ValueError (lit "API key cannot be empty.")))
  ∧ (truthy key = true → isinstance_str key = false →
     __init__ api_endpoint key secret subaccount_name
     = Err (ValueError (lit "API key must be in a valid string format.")))
  ∧ (truthy key = true → isinstance_str key = true →
     truthy secret = false →
     __init__ api_endpoint key secret subaccount_name
     = Err (ValueError (lit "API secret cannot be empty.")))
  ∧ (truthy key = true → isinstance_str key = true →
     truthy secret = true → isinstance_str secret = false →
     __init__ api_endpoint key secret subaccount_name
     = Err (ValueError (lit "API secret must be in a valid string format."))).
Proof.
  unfold __init__, _validate_api_credentials.
  split; [| split; [| split]].
  - intros ->. reflexivity.
  - intros -> ->. reflexivity.
  - intros -> -> ->. reflexivity.
  - intros -> -> -> ->. reflexivity.
Qed.

Lemma init_error_messages_witness :
  __init__ Canned.endpoint VNone (VInt 7) VNone
  = Err (ValueError (lit "API key cannot be empty."))
  ∧ __init__ Canned.endpoint (VInt 7) (VStr []) VNone
    = Err (ValueError (lit "API key must be in a valid string format."))
  ∧ __init__ Canned.endpoint (VStr (lit "key")) (VList []) VNone
    = Err (ValueError (lit "API secret cannot be empty."))
  ∧ __init__ Canned.endpoint (VStr (lit "key")) (VFloat 1.5) VNone
    = Err (ValueError (lit "API secret must be in a valid string format.")).
Proof.
  split; [| split; [| split]].
  - apply (proj1 (init_error_messages Canned.endpoint VNone (VInt 7) VNone)).
    reflexivity.
  - apply (proj1 (proj2 (init_error_messages Canned.endpoint (VInt 7)
                           (VStr []) VNone))); reflexivity.
  - apply (proj1 (proj2 (proj2 (init_error_messages Canned.endpoint
                                  (VStr (lit "key")) (VList []) VNone))));
      reflexivity.
  - apply (proj2 (proj2 (proj2 (init_error_messages Canned.endpoint
                                  (VStr (lit "key")) (VFloat 1.5) VNone))));
      reflexivity.
Defined.

(* ================================================================== *)
(** * Further properties of signing                                    *)
(* ================================================================== *)

Lemma lit_inv s : string_of_list_ascii (map ascii_of_N (lit s)) = s.
Proof.
  unfold lit. rewrite map_map.
  rewrite (map_ext _ id) by (intros a; apply ascii_N_embedding).
  rewrite map_id. apply string_of_list_ascii_of_string.
Qed.

Lemma lit_scalar s : Forall (λ c, is_scalar c = true) (lit s).
Proof.
  unfold lit. apply Forall_forall. intros c Hc%list_elem_of_In.
  apply in_map_iff in Hc as (a & <- & _).
  pose proof (N_ascii_bounded a) as Ha.
  unfold is_scalar, is_code_point, is_surrogate.
  apply andb_true_iff. split; [apply N.ltb_lt; lia |].
  apply negb_true_iff, andb_false_iff. left. apply N.leb_gt. lia.
Qed.

Lemma to_int_proper z : Z.to_int z ≠ Decimal.Pos Decimal.Nil
                        ∧ Z.to_int z ≠ Decimal.Neg Decimal.Nil.
Proof.
  destruct z as [|p|p]; simpl; split; try discriminate;
    intros [= Hp]; exact (Unsigned.to_uint_nonnil p Hp).
Qed.

Lemma quote_octet_chars b :
  forallb is_quoted_char (Urllib.quote_octet b) = true.
Proof. destruct b; reflexivity. Qed.

Lemma quote_chars s q :
  Urllib.quote s = Ok q → forallb is_quoted_char q = true.
Proof.
  unfold Urllib.quote, Urllib.quote_from_bytes. intros Hq.
  apply bind_Ok in Hq as (bs & _ & [= <-]).
  induction bs as [|b bs IH]; [reflexivity |].
  cbn [map concat]. rewrite forallb_app, quote_octet_chars, IH. reflexivity.
Qed.

Section signing_edges.
Context `{Transport}.

(** The headers of a signed request, as the four assignments build them. *)
Lemma sign_request_headers self ts request signed :
  _sign_request self ts request = Ok signed →
  ∃ sig,
    let h := <[lit "FTX-TS" := VStr (str_of_int ts)]>
               (<[lit "FTX-SIGN" := VStr sig]>
                  (<[lit "FTX-KEY" := _api_key self]> (headers request))) in
    if truthy (_subaccount_name self)
    then ∃ name, quote (_subaccount_name self) = Ok name
                 ∧ signed
                   = set_headers request
                       (<[lit "FTX-SUBACCOUNT" := VStr name]> h)
    else signed = set_headers request h.
Proof.
  unfold _sign_request. intros Hs.
  apply bind_Ok in Hs as (prepared & _ & Hs).
  apply bind_Ok in Hs as (text & _ & Hs).
  apply bind_Ok in Hs as (key & _ & Hs).
  eexists. cbv zeta.
  destruct (truthy (_subaccount_name self)).
  - apply bind_Ok in Hs as (name & Hn & [= <-]). eauto.
  - injection Hs as <-. reflexivity.
Qed.

(** X4: signing changes nothing of a request but the four authentication
    headers: method, URL, parameters and JSON payload are kept, and so is
    every header under another name. *)
Theorem sign_request_keeps_request self ts request signed :
  _sign_request self ts request = Ok signed →
  method signed = method request ∧ url signed = url request
  ∧ params signed = params request ∧ json signed = json request
  ∧ ∀ name, name ∉ auth_headers →
            headers signed !! name = headers request !! name.
Proof.
  intros Hs. apply sign_request_headers in Hs as [sig Hs]. cbv zeta in Hs.
  assert (∀ name, name ∉ auth_headers →
            name ≠ lit "FTX-KEY" ∧ name ≠ lit "FTX-SIGN"
            ∧ name ≠ lit "FTX-TS" ∧ name ≠ lit "FTX-SUBACCOUNT") as Hother.
  { intros name Hn. unfold auth_headers in Hn.
    rewrite !not_elem_of_cons in Hn. tauto. }
  destruct (truthy (_subaccount_name self)).
  - destruct Hs as (q & _ & ->). simpl. repeat split.
    intros name (H1 & H2 & H3 & H4)%Hother.
    rewrite !lookup_insert_ne by congruence. reflexivity.
  - subst signed. simpl. repeat split.
    intros name (H1 & H2 & H3 & H4)%Hother.
    rewrite !lookup_insert_ne by congruence. reflexivity.
Qed.

(** X5: a subaccount name that is falsy (the empty string as well as [None])
    is no subaccount: the request is signed as on the main account and
    gets no FTX-SUBACCOUNT header from signing. *)
Theorem falsy_subaccount_is_main_account self ts request :
  truthy (_subaccount_name self) = false →
  _sign_request self ts request = _sign_request (main_account self) ts request
  ∧ ∀ signed, _sign_request self ts request = Ok signed →
      headers signed !! lit "FTX-SUBACCOUNT"
      = headers request !! lit "FTX-SUBACCOUNT".
Proof.
  intros Hsub. split.
  - unfold _sign_request, main_account. simpl. rewrite Hsub. reflexivity.
  - intros signed Hs. apply sign_request_headers in Hs as [sig Hs].
    cbv zeta in Hs. rewrite Hsub in Hs. subst signed. simpl.
    rewrite !lookup_insert_ne by (vm_compute; discriminate). reflexivity.
Qed.


(** X7: the FTX-SUBACCOUNT header is plain ASCII: letters, digits, [_.-~/]
    and percent signs only, whatever the name holds. *)
Theorem subaccount_header_is_ascii self ts request signed :
  truthy (_subaccount_name self) = true →
  _sign_request self ts request = Ok signed →
  ∃ q, headers signed !! lit "FTX-SUBACCOUNT" = Some (VStr q)
       ∧ forallb is_quoted_char q = true
       ∧ Forall (λ c, (c < 0x80)%N) q.
Proof.
  intros Ht Hs. apply sign_request_headers in Hs as [sig Hs].
  cbv zeta in Hs. rewrite Ht in Hs. destruct Hs as (q & Hq & ->).
  exists q. split; [apply lookup_insert_eq |].
  destruct (_subaccount_name self) as [| | | |name| |]; try discriminate.
  simpl in Hq. split; [exact (quote_chars name q Hq) |].
  unfold Urllib.quote in Hq. apply bind_Ok in Hq as (bs & _ & [= <-]).
  apply quote_from_bytes_ascii.
Qed.

(** X8: a client the constructor accepted can sign.  Without subaccount,
    signing succeeds as soon as the request can be prepared, provided the
    secret, the method and the path hold no lone surrogate. *)
Theorem validated_client_signs api_endpoint key secret self ts request
    prepared s :
  __init__ api_endpoint key secret VNone = Ok self →
  secret = VStr s → Forall (λ c, is_scalar c = true) s →
  prepare request = Ok prepared →
  Forall (λ c, is_scalar c = true) (p_method prepared ++ path_url prepared) →
  ∃ signed, _sign_request self ts request = Ok signed.
Proof.
  intros Hinit -> Hs Hp Hmp. unfold __init__ in Hinit.
  destruct (_validate_api_credentials key (VStr s)); [| discriminate].
  injection Hinit as <-.
  apply encode_ok_iff in Hs as [kb Hkb].
  apply Forall_app in Hmp as [Hm Hpath].
  apply encode_ok_iff in Hm as [mb Hmb].
  apply encode_ok_iff in Hpath as [pb Hpb].
  destruct (proj2 (encode_ok_iff (str_of_int ts)) (lit_scalar _)) as [tb Htb].
  eapply (sign_request_succeeds _ ts request prepared s);
    [exact Hp | reflexivity | | discriminate].
  unfold spec_signature. rewrite Hkb, Htb, Hmb, Hpb. reflexivity.
Qed.

(** X9: the FTX-TS header is the timestamp in decimal: read back as a
    numeral it is the clock reading the signature was computed with. *)
Theorem timestamp_header_round_trip self ts request signed :
  _sign_request self ts request = Ok signed →
  ∃ t, headers signed !! lit "FTX-TS" = Some (VStr t) ∧ int_of_str t = Some ts.
Proof.
  intros Hs.
  apply sign_request_inv in Hs
    as (_ & _ & _ & _ & _ & _ & _ & _ & _ & _ & _ & _ & Hts & _).
  exists (str_of_int ts). split; [exact Hts |].
  unfold int_of_str, str_of_int. rewrite lit_inv.
  destruct (to_int_proper ts) as [Hpos Hneg].
  rewrite NilZero.isi by assumption. simpl. f_equal. apply DecimalZ.of_to.
Qed.

End signing_edges.

Lemma sign_request_keeps_request_witness :
  method Canned.markets_sub_signed = method Canned.markets_request
  ∧ url Canned.markets_sub_signed = url Canned.markets_request
  ∧ params Canned.markets_sub_signed = params Canned.markets_request
  ∧ json Canned.markets_sub_signed = json Canned.markets_request
  ∧ ∀ name, name ∉ auth_headers →
            headers Canned.markets_sub_signed !! name
            = headers Canned.markets_request !! name.
Proof.
  apply (sign_request_keeps_request (H:=Canned.transport) Canned.sub_client
           Canned.clock Canned.markets_request Canned.markets_sub_signed).
  vm_compute. reflexivity.
Defined.

(** The empty name, on the canned exchange. *)
Lemma falsy_subaccount_is_main_account_witness :
  let self := mkClient Canned.endpoint (VStr (lit "key"))
                (VStr (lit "secret")) (VStr []) in
  _sign_request (H:=Canned.transport) self Canned.clock Canned.markets_request
  = _sign_request (H:=Canned.transport) (main_account self) Canned.clock
      Canned.markets_request
  ∧ headers Canned.markets_signed !! lit "FTX-SUBACCOUNT"
    = headers Canned.markets_request !! lit "FTX-SUBACCOUNT".
Proof.
  intros self.
  pose proof (falsy_subaccount_is_main_account (H:=Canned.transport) self
                Canned.clock Canned.markets_request eq_refl) as [Hsame Hnone].
  split; [exact Hsame |].
  apply (Hnone Canned.markets_signed). vm_compute. reflexivity.
Defined.


Lemma subaccount_header_is_ascii_witness :
  ∃ q, headers Canned.markets_sub_signed !! lit "FTX-SUBACCOUNT"
       = Some (VStr q)
       ∧ forallb is_quoted_char q = true
       ∧ Forall (λ c, (c < 0x80)%N) q.
Proof.
  apply (subaccount_header_is_ascii (H:=Canned.transport) Canned.sub_client
           Canned.clock Canned.markets_request Canned.markets_sub_signed);
    [reflexivity | vm_compute; reflexivity].
Defined.

Lemma validated_client_signs_witness :
  ∃ signed,
    _sign_request (H:=Canned.transport) Canned.client Canned.clock
      Canned.markets_request = Ok signed.
Proof.
  apply (validated_client_signs (H:=Canned.transport) Canned.endpoint
           (VStr (lit "key")) (VStr (lit "secret")) Canned.client Canned.clock
           Canned.markets_request
           (mkPrepared (lit "GET") (Canned.endpoint ++ lit "markets") ∅ None)
           (lit "secret")).
  - reflexivity.
  - reflexivity.
  - apply lit_scalar.
  - reflexivity.
  - repeat constructor.
Defined.

Lemma timestamp_header_round_trip_witness :
  ∃ t, headers Canned.markets_signed !! lit "FTX-TS" = Some (VStr t)
       ∧ int_of_str t = Some Canned.clock.
Proof.
  apply (timestamp_header_round_trip (H:=Canned.transport) Canned.client
           Canned.clock Canned.markets_request Canned.markets_signed).
  vm_compute. reflexivity.
Defined.

(* ================================================================== *)
(** * Further properties of the dispatcher                             *)
(* ================================================================== *)

Section dispatcher_edges.
Context `{Transport}.

(** Once the request is out and answered, [_request] is the normaliser. *)
Lemma request_answered self ts method path params json sent response :
  outgoing self ts method path params json = Ok sent →
  send sent = Ok response →
  _request self ts method path params json = _process_response response.
Proof.
  intros Ho Hsend. rewrite request_outgoing, Ho. simpl. rewrite Hsend.
  reflexivity.
Qed.

(** X10: what [_get] and [_post] put on the wire.  A GET never has a body; a
    POST has the JSON encoding of its parameters as body and no query
    parameters, and no body at all when called without parameters. *)
Theorem get_and_post_shapes self ts path params sent :
  (outgoing self ts (lit "GET") path params VNone = Ok sent →
   _get self ts path params
   = (response ← send sent; _process_response response)
   ∧ p_method sent = lit "GET" ∧ p_body sent = None
   ∧ prepare_url (_api_endpoint self ++ path) params = Ok (p_url sent))
  ∧ (outgoing self ts (lit "POST") path VNone params = Ok sent →
     _post self ts path params
     = (response ← send sent; _process_response response)
     ∧ p_method sent = lit "POST"
     ∧ prepare_url (_api_endpoint self ++ path) VNone = Ok (p_url sent)
     ∧ (params = VNone → p_body sent = None)
     ∧ (params ≠ VNone →
        ∃ body, json_dumps params = Ok body ∧ p_body sent = Some body)).
Proof.
  split; intros Ho.
  - pose proof (outgoing_inv _ _ _ _ _ _ _ Ho) as (Hm & Hu & Hb).
    unfold _get. rewrite request_outgoing, Ho. injection Hb as Hb. auto.
  - pose proof (outgoing_inv _ _ _ _ _ _ _ Ho) as (Hm & Hu & Hb).
    unfold _post. rewrite request_outgoing, Ho.
    repeat split; [exact Hm | exact Hu | |].
    + intros ->. injection Hb as Hb. auto.
    + intros Hne. unfold prepare_body in Hb.
      destruct params; try (destruct (Hne eq_refl));
        apply bind_Ok in Hb as (body & Hbody & [= Hb]); eauto.
Qed.

(** X11: the futures methods do no recovery of their own.  When the exchange
    answers the futures request with a failed envelope, each of the four
    raises the exception that carries the exchange's error; when the
    transport fails, each raises the transport's exception. *)
Theorem futures_methods_propagate_errors self ts underlying sent :
  outgoing self ts (lit "GET") (lit "futures") VNone VNone = Ok sent →
  let all_raise e :=
    get_all_futures self ts = Err e
    ∧ get_all_underlying_futures self ts underlying = Err e
    ∧ get_next_underlying_future self ts underlying = Err e
    ∧ get_next_underlying_future_name self ts underlying = Err e in
  (∀ e, send sent = Err e → all_raise e)
  ∧ (∀ response data success error,
       send sent = Ok response →
       json_loads (content response) = Some data →
       getitem data (lit "success") = Ok success → truthy success = false →
       getitem data (lit "error") = Ok error →
       all_raise (Exception error)).
Proof.
  intros Ho all_raise.
  assert (∀ e, _get self ts (lit "futures") VNone = Err e → all_raise e)
    as Hall.
  { intros e He. unfold all_raise, get_next_underlying_future_name,
      get_next_underlying_future, get_all_underlying_futures, get_all_futures.
    rewrite He. auto. }
  split.
  - intros e Hsend. apply Hall.
    unfold _get. rewrite request_outgoing, Ho. simpl. rewrite Hsend.
    reflexivity.
  - intros response data success error Hsend Hjson Hs Ht He. apply Hall.
    unfold _get. rewrite (request_answered _ _ _ _ _ _ _ _ Ho Hsend).
    unfold _process_response. rewrite Hjson, Hs. simpl. rewrite Ht, He.
    reflexivity.
Qed.

(** X12: "list open orders" asks for the orders of one market, or passes
    [None] under the key [market] when no market is given; it is a GET of
    [orders] without body. *)
Theorem get_open_orders_params self ts market :
  let params := VDict [(lit "market", default VNone market)] in
  get_open_orders self ts market
  = (sent ← outgoing self ts (lit "GET") (lit "orders") params VNone;
     response ← send sent;
     _process_response response)
  ∧ ∀ sent,
      outgoing self ts (lit "GET") (lit "orders") params VNone = Ok sent →
      p_method sent = lit "GET"
      ∧ prepare_url (_api_endpoint self ++ lit "orders") params
        = Ok (p_url sent)
      ∧ p_body sent = None.
Proof.
  intros params. split.
  - unfold get_open_orders, _get. rewrite request_outgoing. reflexivity.
  - intros sent Ho. apply outgoing_inv in Ho as (Hm & Hu & Hb).
    injection Hb as Hb. auto.
Qed.

(** X13: the price of a market is the [price] field of what "get single
    market" returns for the path [markets/<market>]: with a successful
    envelope the market is its [result], and the price call raises KeyError
    when that record has no price and TypeError when it is not a record. *)
Theorem get_single_market_price_field self ts market sent response data
    success m :
  outgoing self ts (lit "GET") (lit "markets/" ++ market) VNone VNone
  = Ok sent →
  send sent = Ok response →
  json_loads (content response) = Some data →
  getitem data (lit "success") = Ok success → truthy success = true →
  getitem data (lit "result") = Ok m →
  get_single_market self ts market = Ok m
  ∧ get_single_market_price self ts market = getitem m (lit "price")
  ∧ (∀ d, m = VDict d → assoc (lit "price") d = None →
          get_single_market_price self ts market
          = Err (KeyError (lit "price")))
  ∧ ((∀ d, m ≠ VDict d) →
     get_single_market_price self ts market = Err TypeError).
Proof.
  intros Ho Hsend Hjson Hs Ht Hm.
  assert (get_single_market self ts market = Ok m) as Hmarket.
  { unfold get_single_market, _get.
    rewrite (request_answered _ _ _ _ _ _ _ _ Ho Hsend).
    unfold _process_response. rewrite Hjson, Hs. simpl. rewrite Ht.
    exact Hm. }
  assert (get_single_market_price self ts market = getitem m (lit "price"))
    as Hprice by (unfold get_single_market_price; rewrite Hmarket; reflexivity).
  split; [exact Hmarket |]. split; [exact Hprice |]. rewrite Hprice. split.
  - intros d -> Hd. simpl. rewrite Hd. reflexivity.
  - intros Hnd. destruct m; try reflexivity. destruct (Hnd d). reflexivity.
Qed.

End dispatcher_edges.

(* ================================================================== *)
(** * Further properties of the futures methods                        *)
(* ================================================================== *)

Lemma is_ok_field k v :
  is_ok (getitem v (lit k)) = true → getitem v (lit k) = Ok (field k v).
Proof.
  unfold field. destruct (getitem v (lit k)); [reflexivity | discriminate].
Qed.

Lemma open_future_test_clean f :
  reads_cleanly f = true → open_future_test f = Ok (is_open_future f).
Proof.
  unfold reads_cleanly, open_future_test, is_open_future.
  intros [Ht Hrest]%andb_true_iff. rewrite (is_ok_field "type" f Ht). simpl.
  destruct (py_eq (field "type" f) (VStr (lit "future"))); [| reflexivity].
  apply andb_true_iff in Hrest as [He Hrest].
  rewrite (is_ok_field "enabled" f He). simpl.
  destruct (py_eq (field "enabled" f) (VBool true)); [| reflexivity].
  rewrite (is_ok_field "expired" f Hrest). reflexivity.
Qed.

(** A comprehension stops at the first item whose condition raises. *)
Lemma comprehension_raises cond (p : value → bool) pre x post e :
  Forall (λ y, cond y = Ok (p y)) pre → cond x = Err e →
  comprehension cond (pre ++ x :: post) = Err e.
Proof.
  intros Hpre Hx. induction Hpre as [|y pre Hy _ IH]; simpl.
  - rewrite Hx. reflexivity.
  - rewrite Hy, IH. reflexivity.
Qed.

Lemma comprehension_ext cond cond' items :
  (∀ x, cond x = cond' x) →
  comprehension cond items = comprehension cond' items.
Proof.
  intros Hext. induction items as [|x items IH]; simpl; [reflexivity |].
  rewrite Hext, IH. reflexivity.
Qed.

Section futures_edges.
Context `{Transport}.

Lemma get_all_futures_test self ts :
  get_all_futures self ts
  = (futures ← _get self ts (lit "futures") VNone;
     items ← py_iter futures;
     comprehension open_future_test items).
Proof.
  unfold get_all_futures.
  destruct (_get self ts (lit "futures") VNone) as [futures|]; [| reflexivity].
  simpl. destruct (py_iter futures) as [items|]; [| reflexivity]. simpl.
  apply comprehension_ext. intros f. unfold and_then, open_future_test.
  destruct (getitem f (lit "type")) as [t|]; [simpl | reflexivity].
  destruct (py_eq t (VStr (lit "future"))); [| reflexivity].
  destruct (getitem f (lit "enabled")) as [e|]; [simpl | reflexivity].
  destruct (py_eq e (VBool true)); reflexivity.
Qed.

(** "list all futures" under the weakest condition on the entries. *)
Lemma get_all_futures_reads_lazily_aux self ts raw :
  _get self ts (lit "futures") VNone = Ok (VList raw) →
  Forall (λ f, reads_cleanly f = true) raw →
  get_all_futures self ts = Ok (List.filter is_open_future raw).
Proof.
  intros Hget Hraw. rewrite get_all_futures_test, Hget. simpl.
  apply comprehension_filter.
  eapply Forall_impl; [exact Hraw |]. intros f. apply open_future_test_clean.
Qed.

(** X14: the three tests of "list all futures" are taken in order and stop at
    the first that fails, so an entry only needs the fields that are read:
    a perpetual without [enabled] or [expired] is skipped, not an error. *)
Theorem get_all_futures_reads_lazily self ts raw :
  _get self ts (lit "futures") VNone = Ok (VList raw) →
  Forall (λ f, reads_cleanly f = true) raw →
  ∃ kept, get_all_futures self ts = Ok kept
          ∧ kept = List.filter is_open_future raw
          ∧ ∀ f, f ∈ raw → is_open_future f = false → f ∉ kept.
Proof.
  intros Hget Hraw. eexists.
  split; [exact (get_all_futures_reads_lazily_aux self ts raw Hget Hraw) |].
  split; [reflexivity |].
  intros f _ Hf Hin%list_elem_of_In. apply filter_In in Hin as [_ Hin].
  congruence.
Qed.

(** X15: a list that cannot be filtered.  The first entry on which a field
    that is read is missing raises KeyError for that field, the first entry
    that is not a record raises TypeError, whatever follows it; a result
    that is no collection at all raises TypeError. *)
Theorem get_all_futures_bad_entry self ts v :
  _get self ts (lit "futures") VNone = Ok v →
  (∀ pre f post, v = VList (pre ++ f :: post) →
     Forall (λ g, reads_cleanly g = true) pre →
     ((∀ d, f ≠ VDict d) → get_all_futures self ts = Err TypeError)
     ∧ (∀ d, f = VDict d → assoc (lit "type") d = None →
             get_all_futures self ts = Err (KeyError (lit "type")))
     ∧ (∀ d, f = VDict d →
             assoc (lit "type") d = Some (VStr (lit "future")) →
             assoc (lit "enabled") d = None →
             get_all_futures self ts = Err (KeyError (lit "enabled"))))
  ∧ (as_num v ≠ None ∨ v = VNone → get_all_futures self ts = Err TypeError).
Proof.
  intros Hget. rewrite get_all_futures_test, Hget. simpl. split.
  - intros pre f post -> Hpre. simpl.
    assert (∀ e, open_future_test f = Err e →
                 comprehension open_future_test (pre ++ f :: post) = Err e)
      as Hraise.
    { intros e He. apply (comprehension_raises _ is_open_future); [| exact He].
      eapply Forall_impl; [exact Hpre |]. intros g.
      apply open_future_test_clean. }
    split; [| split].
    + intros Hnd. apply Hraise.
      destruct f; try reflexivity. destruct (Hnd d). reflexivity.
    + intros d -> Hd. apply Hraise.
      unfold open_future_test. simpl. rewrite Hd. reflexivity.
    + intros d -> Ht He. apply Hraise.
      unfold open_future_test. simpl. rewrite Ht. simpl. rewrite He.
      reflexivity.
  - intros [Hnum | ->]; [| reflexivity].
    destruct v; try reflexivity; simpl in Hnum; congruence.
Qed.

(** X16: "list futures for underlying" is a second filter over "list all
    futures": it keeps, in order, the open futures whose [underlying]
    equals the asset; only open futures need that field. *)
Theorem get_all_underlying_futures_selects self ts underlying raw :
  _get self ts (lit "futures") VNone = Ok (VList raw) →
  Forall (λ f, reads_cleanly f = true) raw →
  Forall (λ f, has_fields ["underlying"]%string f = true)
    (List.filter is_open_future raw) →
  ∃ kept,
    get_all_underlying_futures self ts underlying = Ok kept
    ∧ get_all_futures self ts = Ok (List.filter is_open_future raw)
    ∧ kept = List.filter (λ f, py_eq (field "underlying" f) underlying)
               (List.filter is_open_future raw)
    ∧ sublist kept (List.filter is_open_future raw)
    ∧ ∀ f, f ∈ kept ↔ f ∈ raw ∧ is_open_future_of underlying f = true.
Proof.
  intros Hget Hraw Hund.
  pose proof (get_all_futures_reads_lazily_aux self ts raw Hget Hraw) as Hall.
  eexists. split; [| split; [exact Hall | split; [reflexivity |]]].
  - unfold get_all_underlying_futures. rewrite Hall. simpl.
    apply comprehension_filter.
    eapply Forall_impl; [exact Hund |]. intros f Hf.
    apply has_fields_cons in Hf as [-> _]. reflexivity.
  - split; [apply sublist_list_filter |].
    intros f. rewrite filter_filter_and, !list_elem_of_In, filter_In.
    reflexivity.
Qed.

Lemma next_future_name_is_name_of_next_aux self ts underlying :
  get_next_underlying_future_name self ts underlying
  = (next ← get_next_underlying_future self ts underlying;
     getitem next (lit "name")).
Proof.
  unfold get_next_underlying_future_name, get_next_underlying_future.
  destruct (get_all_underlying_futures self ts underlying) as [all|];
    reflexivity.
Qed.

(** X17: the name method repeats the selection of "next future": it returns
    the [name] field of the very future "next future for underlying"
    returns, and fails as that method fails. *)
Theorem next_future_name_is_name_of_next self ts underlying :
  get_next_underlying_future_name self ts underlying
  = (next ← get_next_underlying_future self ts underlying;
     getitem next (lit "name"))
  ∧ (∀ e, get_next_underlying_future self ts underlying = Err e →
          get_next_underlying_future_name self ts underlying = Err e)
  ∧ (∀ next, get_next_underlying_future self ts underlying = Ok next →
       get_next_underlying_future_name self ts underlying
       = getitem next (lit "name")
       ∧ (∀ d, next = VDict d → assoc (lit "name") d = None →
               get_next_underlying_future_name self ts underlying
               = Err (KeyError (lit "name")))).
Proof.
  pose proof (next_future_name_is_name_of_next_aux self ts underlying) as Hn.
  split; [exact Hn |]. split.
  - intros e He. rewrite Hn, He. reflexivity.
  - intros next Hnext. rewrite Hn, Hnext. split; [reflexivity |].
    intros d -> Hd. simpl. rewrite Hd. reflexivity.
Qed.

End futures_edges.

(* ================================================================== *)
(** * Which future [min] picks among equals                            *)
(* ================================================================== *)

Section min_first.
Variable kind : value → Prop.
Hypothesis lt_total : ∀ a b, kind a → kind b → ∃ r, py_lt a b = Ok r.
Hypothesis lt_trans : ∀ a b c, kind a → kind b → kind c →
  py_lt a b = Ok true → py_lt b c = Ok true → py_lt a c = Ok true.
Hypothesis lt_trichotomy : ∀ a b, kind a → kind b →
  py_lt a b = Ok true ∨ a = b ∨ py_lt b a = Ok true.
Variable key : value → result value.

Let above (e : value) (g : value) : Prop :=
  ∀ k, key g = Ok k → py_lt e k = Ok true.
Let not_below (e : value) (g : value) : Prop :=
  ∀ k, key g = Ok k → py_lt k e = Ok false.

(** Below the running minimum and not above a key: below that key. *)
Lemma lt_not_lt a b c :
  kind a → kind b → kind c →
  py_lt a b = Ok true → py_lt c b = Ok false → py_lt a c = Ok true.
Proof using lt_trans lt_trichotomy.
  intros Ha Hb Hc Hab Hcb.
  destruct (lt_trichotomy a c Ha Hc) as [Hlt | [-> | Hgt]];
    [exact Hlt | congruence |].
  pose proof (lt_trans c a b Hc Ha Hb Hgt Hab). congruence.
Qed.

(** The loop keeps the running minimum unless an item is strictly below
    it; the item it ends on is strictly below everything before it. *)
Lemma min_loop_first items minitem m :
  Forall (λ g, ∃ k, key g = Ok k ∧ kind k) items →
  key minitem = Ok m → kind m →
  (min_loop key items minitem m = Ok minitem ∧ Forall (not_below m) items)
  ∨ ∃ pre f post e,
      items = pre ++ f :: post ∧ min_loop key items minitem m = Ok f
      ∧ key f = Ok e ∧ kind e ∧ py_lt e m = Ok true
      ∧ Forall (above e) pre ∧ Forall (not_below e) post.
Proof using All.
  intros Hitems. revert minitem m.
  induction Hitems as [|g items (z & Hg & Hz) _ IH]; intros minitem m Hm Hkm.
  - left. split; [reflexivity | constructor].
  - cbn [min_loop]. rewrite Hg.
    change (Ok z ≫= ?k) with (k z). cbv beta.
    destruct (lt_total z m Hz Hkm) as [[] Hlt]; rewrite Hlt;
      change (Ok ?b ≫= ?k) with (k b); cbv beta iota.
    + right. destruct (IH g z Hg Hz)
        as [[Hloop Hall] | (pre & f & post & e & -> & Hloop & Hf & Hke & Hez
                            & Hpre & Hpost)].
      * exists [], g, items, z.
        repeat split; [exact Hloop | exact Hg | exact Hz | exact Hlt
                      | constructor | exact Hall].
      * exists (g :: pre), f, post, e.
        repeat split; [exact Hloop | exact Hf | exact Hke | | | exact Hpost].
        -- exact (lt_trans e z m Hke Hz Hkm Hez Hlt).
        -- constructor; [| exact Hpre]. intros k Hk.
           rewrite Hg in Hk. injection Hk as <-. exact Hez.
    + destruct (IH minitem m Hm Hkm)
        as [[Hloop Hall] | (pre & f & post & e & -> & Hloop & Hf & Hke & Hem
                            & Hpre & Hpost)].
      * left. split; [exact Hloop |]. constructor; [| exact Hall].
        intros k Hk. rewrite Hg in Hk. injection Hk as <-. exact Hlt.
      * right. exists (g :: pre), f, post, e.
        repeat split; [exact Hloop | exact Hf | exact Hke | exact Hem
                      | | exact Hpost].
        constructor; [| exact Hpre]. intros k Hk.
        rewrite Hg in Hk. injection Hk as <-.
        exact (lt_not_lt e m z Hke Hkm Hz Hem Hlt).
Qed.

(** [min] returns the first of the least items. *)
Lemma py_min_first items :
  items ≠ [] →
  Forall (λ g, ∃ k, key g = Ok k ∧ kind k) items →
  ∃ pre f post e,
    items = pre ++ f :: post ∧ py_min items key = Ok f ∧ key f = Ok e
    ∧ Forall (above e) pre ∧ Forall (not_below e) post.
Proof using All.
  intros Hne Hitems.
  destruct Hitems as [|g items (z & Hg & Hz) Hitems]; [done |].
  cbn [py_min]. rewrite Hg. change (Ok z ≫= ?k) with (k z). cbv beta.
  destruct (min_loop_first items g z Hitems Hg Hz)
    as [[Hloop Hall] | (pre & f & post & e & -> & Hloop & Hf & Hke & Hez
                        & Hpre & Hpost)].
  - exists [], g, items, z.
    repeat split; [exact Hloop | exact Hg | constructor | exact Hall].
  - exists (g :: pre), f, post, e.
    repeat split; [exact Hloop | exact Hf | | exact Hpost].
    constructor; [| exact Hpre]. intros k Hk.
    rewrite Hg in Hk. injection Hk as <-. exact Hez.
Qed.

End min_first.

Lemma py_min_first_timestamps key items :
  items ≠ [] →
  Forall (λ g, is_ok (key g) = true) items →
  timestamps (map (λ g, default VNone (match key g with
                                       | Ok k => Some k
                                       | Err _ => None
                                       end)) items) →
  ∃ pre f post e,
    items = pre ++ f :: post ∧ py_min items key = Ok f ∧ key f = Ok e
    ∧ Forall (λ g, ∀ k, key g = Ok k → py_lt e k = Ok true) pre
    ∧ Forall (λ g, ∀ k, key g = Ok k → py_lt k e = Ok false) post.
Proof.
  intros Hne Hok Hkind.
  assert (∀ kind,
            Forall kind (map (λ g, default VNone (match key g with
                                                  | Ok k => Some k
                                                  | Err _ => None
                                                  end)) items) →
            Forall (λ g, ∃ k, key g = Ok k ∧ kind k) items) as Hkeys.
  { intros kind Hk. rewrite Forall_map in Hk.
    apply Forall_forall. intros g Hg.
    rewrite Forall_forall in Hok, Hk. specialize (Hok g Hg).
    specialize (Hk g Hg). simpl in Hk.
    destruct (key g) as [k|]; [| discriminate]. eauto. }
  destruct Hkind as [Hk | Hk].
  - apply (py_min_first is_int); [| | | exact Hne | exact (Hkeys _ Hk)].
    + intros _ _ [a ->] [b ->]. rewrite py_lt_int. eauto.
    + intros _ _ _ [a ->] [b ->] [c ->]. rewrite !py_lt_int.
      intros [= Hab%Z.ltb_lt] [= Hbc%Z.ltb_lt]. f_equal. apply Z.ltb_lt. lia.
    + intros _ _ [a ->] [b ->]. rewrite !py_lt_int.
      destruct (Z.lt_trichotomy a b) as [Hlt | [-> | Hgt]].
      * left. f_equal. apply Z.ltb_lt. exact Hlt.
      * right. left. reflexivity.
      * right. right. f_equal. apply Z.ltb_lt. exact Hgt.
  - apply (py_min_first is_str); [| | | exact Hne | exact (Hkeys _ Hk)].
    + intros _ _ [a ->] [b ->]. rewrite py_lt_str. eauto.
    + intros _ _ _ [a ->] [b ->] [c ->]. rewrite !py_lt_str.
      intros [= Hab] [= Hbc]. f_equal. eapply str_ltb_trans; eassumption.
    + intros _ _ [a ->] [b ->]. rewrite !py_lt_str.
      destruct (str_ltb_trichotomy a b) as [Hlt | [-> | Hgt]].
      * left. f_equal. exact Hlt.
      * right. left. reflexivity.
      * right. right. f_equal. exact Hgt.
Qed.

Section first_earliest.
Context `{Transport}.

(** X18: among futures with the same earliest expiry "next future" returns
    the one listed first: every candidate before the returned one expires
    strictly later, none after it expires earlier.  This fixes the result. *)
Theorem next_future_is_first_earliest self ts underlying raw :
  _get self ts (lit "futures") VNone = Ok (VList raw) →
  Forall (λ f, has_fields ["type"; "enabled"; "expired"; "underlying"]%string f
               = true) raw →
  let candidates := List.filter (is_open_future_of underlying) raw in
  Forall (λ f, has_fields ["expiry"]%string f = true) candidates →
  timestamps (map (field "expiry") candidates) →
  candidates ≠ [] →
  ∃ pre f post,
    candidates = pre ++ f :: post
    ∧ get_next_underlying_future self ts underlying = Ok f
    ∧ (∀ g, g ∈ pre →
            py_lt (field "expiry" f) (field "expiry" g) = Ok true)
    ∧ (∀ g, g ∈ post →
            py_lt (field "expiry" g) (field "expiry" f) = Ok false).
Proof.
  intros Hget Hraw candidates Hexp Hkind Hne.
  unfold get_next_underlying_future.
  rewrite (get_all_underlying_futures_filter self ts underlying raw Hget Hraw).
  fold candidates. change (Ok candidates ≫= ?k) with (k candidates). cbv beta.
  assert (∀ g, g ∈ candidates →
               getitem g (lit "expiry") = Ok (field "expiry" g)) as Hfield.
  { intros g Hg. rewrite Forall_forall in Hexp. specialize (Hexp g Hg).
    apply has_fields_cons in Hexp as [Hexp _]. exact Hexp. }
  destruct (py_min_first_timestamps
              (λ future, getitem future (lit "expiry")) candidates Hne)
    as (pre & f & post & e & Hsplit & Hmin & Hf & Hpre & Hpost).
  - apply Forall_forall. intros g Hg. rewrite (Hfield g Hg). reflexivity.
  - erewrite map_ext_in; [exact Hkind |].
    intros g Hg%list_elem_of_In. simpl. rewrite (Hfield g Hg). reflexivity.
  - exists pre, f, post.
    assert (f ∈ candidates) as Hin
      by (rewrite Hsplit; apply elem_of_app; right; left).
    assert (field "expiry" f = e) as -> by (rewrite (Hfield f Hin) in Hf; congruence).
    repeat split; [exact Hsplit | exact Hmin | |].
    + intros g Hg. rewrite Forall_forall in Hpre. apply (Hpre g Hg).
      apply Hfield. rewrite Hsplit. apply elem_of_app. left. exact Hg.
    + intros g Hg. rewrite Forall_forall in Hpost. apply (Hpost g Hg).
      apply Hfield. rewrite Hsplit. apply elem_of_app. right. right. exact Hg.
Qed.


End first_earliest.

(* ================================================================== *)
(** * These properties on the canned and stub exchanges                *)
(* ================================================================== *)

Lemma get_and_post_shapes_witness :
  (_get (H:=Canned.transport) Canned.client Canned.clock (lit "orders")
     (VDict [(lit "market", VNone)])
   = (response ← send (Transport:=Canned.transport) Sent.orders;
      _process_response (H:=Canned.transport) response)
   ∧ p_method Sent.orders = lit "GET" ∧ p_body Sent.orders = None
   ∧ prepare_url (Transport:=Canned.transport)
       (_api_endpoint Canned.client ++ lit "orders")
       (VDict [(lit "market", VNone)]) = Ok (p_url Sent.orders))
  ∧ (_post (H:=Canned.transport) Canned.client Canned.clock (lit "orders")
       Canned.order
     = (response ← send (Transport:=Canned.transport) Canned.order_sent;
        _process_response (H:=Canned.transport) response)
     ∧ p_method Canned.order_sent = lit "POST"
     ∧ prepare_url (Transport:=Canned.transport)
         (_api_endpoint Canned.client ++ lit "orders") VNone
       = Ok (p_url Canned.order_sent)
     ∧ (Canned.order = VNone → p_body Canned.order_sent = None)
     ∧ (Canned.order ≠ VNone →
        ∃ body, json_dumps (Transport:=Canned.transport) Canned.order = Ok body
                ∧ p_body Canned.order_sent = Some body)).
Proof.
  split.
  - apply (proj1 (get_and_post_shapes (H:=Canned.transport) Canned.client
                    Canned.clock (lit "orders")
                    (VDict [(lit "market", VNone)]) Sent.orders)).
    vm_compute. reflexivity.
  - apply (proj2 (get_and_post_shapes (H:=Canned.transport) Canned.client
                    Canned.clock (lit "orders") Canned.order
                    Canned.order_sent)).
    vm_compute. reflexivity.
Defined.

Lemma futures_methods_propagate_errors_witness :
  let T := Stub.answering 400 (Some (Stub.failure "Not logged in")) in
  let e := Exception (VStr (lit "Not logged in")) in
  get_all_futures (H:=T) Canned.client Canned.clock = Err e
  ∧ get_all_underlying_futures (H:=T) Canned.client Canned.clock
      (VStr (lit "BTC")) = Err e
  ∧ get_next_underlying_future (H:=T) Canned.client Canned.clock
      (VStr (lit "BTC")) = Err e
  ∧ get_next_underlying_future_name (H:=T) Canned.client Canned.clock
      (VStr (lit "BTC")) = Err e.
Proof.
  intros T e.
  apply (proj2 (futures_methods_propagate_errors (H:=T) Canned.client
                  Canned.clock (VStr (lit "BTC")) Sent.futures
                  ltac:(vm_compute; reflexivity))
           (mkResponse 400 []) (Stub.failure "Not logged in") (VBool false)
           (VStr (lit "Not logged in")));
    reflexivity.
Defined.

Lemma get_open_orders_params_witness :
  p_method Sent.orders = lit "GET"
  ∧ prepare_url (Transport:=Canned.transport)
      (_api_endpoint Canned.client ++ lit "orders")
      (VDict [(lit "market", VNone)]) = Ok (p_url Sent.orders)
  ∧ p_body Sent.orders = None.
Proof.
  apply (proj2 (get_open_orders_params (H:=Canned.transport) Canned.client
                  Canned.clock None) Sent.orders).
  vm_compute. reflexivity.
Defined.

Lemma get_single_market_price_field_witness :
  let m := VDict [(lit "name", VStr (lit "BTC-PERP"));
                  (lit "price", VFloat 10579.5)] in
  let T := Stub.answering 200 (Some (Stub.success m)) in
  get_single_market (H:=T) Canned.client Canned.clock (lit "BTC-PERP") = Ok m
  ∧ get_single_market_price (H:=T) Canned.client Canned.clock
      (lit "BTC-PERP") = Ok (VFloat 10579.5).
Proof.
  intros m T.
  assert (outgoing (H:=T) Canned.client Canned.clock (lit "GET")
            (lit "markets/" ++ lit "BTC-PERP") VNone VNone = Ok Sent.market)
    as Hsent by (vm_compute; reflexivity).
  pose proof (get_single_market_price_field (H:=T) Canned.client Canned.clock
                (lit "BTC-PERP") Sent.market (mkResponse 200 [])
                (Stub.success m) (VBool true) m Hsent eq_refl eq_refl eq_refl
                eq_refl eq_refl) as (Hmarket & Hprice & _).
  split; [exact Hmarket | exact Hprice].
Defined.

Lemma get_all_futures_reads_lazily_witness :
  let T := Stub.answering 200 (Some (Stub.success (VList Sent.sparse))) in
  ∃ kept, get_all_futures (H:=T) Canned.client Canned.clock = Ok kept
          ∧ kept = List.filter is_open_future Sent.sparse
          ∧ ∀ f, f ∈ Sent.sparse → is_open_future f = false → f ∉ kept.
Proof.
  intros T.
  apply (get_all_futures_reads_lazily (H:=T) Canned.client Canned.clock
           Sent.sparse).
  - vm_compute. reflexivity.
  - repeat constructor.
Defined.

Lemma get_all_futures_bad_entry_witness :
  let T := Stub.answering 200 (Some (Stub.success (VList Sent.broken))) in
  get_all_futures (H:=T) Canned.client Canned.clock
  = Err (KeyError (lit "type")).
Proof.
  intros T.
  apply (proj1 (proj2 (proj1 (get_all_futures_bad_entry (H:=T) Canned.client
                  Canned.clock (VList Sent.broken)
                  ltac:(vm_compute; reflexivity))
           [Canned.future "BTC-0101" "BTC" "future" true false (VInt 1000)]
           (VDict [(lit "name", VStr (lit "BTC-0201"))]) [VInt 7]
           eq_refl ltac:(repeat constructor)))
           [(lit "name", VStr (lit "BTC-0201"))]);
    reflexivity.
Defined.

Lemma get_all_underlying_futures_selects_witness :
  ∃ kept,
    get_all_underlying_futures (H:=Canned.transport) Canned.client
      Canned.clock (VStr (lit "BTC")) = Ok kept
    ∧ get_all_futures (H:=Canned.transport) Canned.client Canned.clock
      = Ok (List.filter is_open_future Canned.futures)
    ∧ kept = List.filter (λ f, py_eq (field "underlying" f) (VStr (lit "BTC")))
               (List.filter is_open_future Canned.futures)
    ∧ sublist kept (List.filter is_open_future Canned.futures)
    ∧ ∀ f, f ∈ kept ↔ f ∈ Canned.futures
                      ∧ is_open_future_of (VStr (lit "BTC")) f = true.
Proof.
  apply (get_all_underlying_futures_selects (H:=Canned.transport)
           Canned.client Canned.clock (VStr (lit "BTC")) Canned.futures).
  - vm_compute. reflexivity.
  - repeat constructor.
  - repeat constructor.
Defined.

Lemma next_future_is_first_earliest_witness :
  let T := Stub.answering 200 (Some (Stub.success (VList Sent.tied))) in
  let candidates :=
    List.filter (is_open_future_of (VStr (lit "BTC"))) Sent.tied in
  ∃ pre f post,
    candidates = pre ++ f :: post
    ∧ get_next_underlying_future (H:=T) Canned.client Canned.clock
        (VStr (lit "BTC")) = Ok f
    ∧ (∀ g, g ∈ pre →
            py_lt (field "expiry" f) (field "expiry" g) = Ok true)
    ∧ (∀ g, g ∈ post →
            py_lt (field "expiry" g) (field "expiry" f) = Ok false).
Proof.
  intros T.
  apply (next_future_is_first_earliest (H:=T) Canned.client Canned.clock
           (VStr (lit "BTC")) Sent.tied).
  - vm_compute. reflexivity.
  - repeat constructor.
  - repeat constructor.
  - left. repeat constructor; eexists; reflexivity.
  - discriminate.
Defined.

(** With the tie, the future listed first is the one returned. *)
Example tied_next_future :
  get_next_underlying_future_name
    (H:=Stub.answering 200 (Some (Stub.success (VList Sent.tied))))
    Canned.client Canned.clock (VStr (lit "BTC"))
  = Ok (VStr (lit "BTC-0101")).
Proof. vm_compute. reflexivity. Qed.


Lemma next_future_name_is_name_of_next_witness :
  get_next_underlying_future_name (H:=Canned.transport) Canned.client
    Canned.clock (VStr (lit "BTC"))
  = getitem (Canned.future "BTC-0101" "BTC" "future" true false (VInt 1000))
      (lit "name")
  ∧ get_next_underlying_future_name (H:=Canned.transport) Canned.client
      Canned.clock (VStr (lit "XRP"))
    = Err (ValueError (lit "min() arg is an empty sequence")).
Proof.
  pose proof (next_future_name_is_name_of_next (H:=Canned.transport)
                Canned.client Canned.clock (VStr (lit "BTC")))
    as (_ & _ & Hname).
  pose proof (next_future_name_is_name_of_next (H:=Canned.transport)
                Canned.client Canned.clock (VStr (lit "XRP")))
    as (_ & Herr & _).
  split.
  - apply Hname. vm_compute. reflexivity.
  - apply Herr. vm_compute. reflexivity.
Defined.
